(** * PotatOS console: a shallow embedding of [src/kernel/console.c]

    The C translation unit is modelled as functions over a [machine]
    record holding the file's static variables together with the I/O
    history of the platform.  Port reads are answered by a [hardware]
    oracle that may depend on the whole history, so statements that
    quantify over [hardware] cover every device behaviour. *)

From Stdlib Require Import ZArith List Bool Lia Ascii.
From stdpp Require Import base list.
Import ListNotations.
Local Open Scope Z_scope.

(** ** Machine integers *)

(** Conversion to [uint8_t], [uint16_t] and [uint32_t]. *)
Definition u8 (x : Z) : Z := x mod 256.
Definition u16 (x : Z) : Z := x mod 65536.
Definition u32 (x : Z) : Z := x mod 4294967296.

(** A C character constant. *)
Definition chr (a : ascii) : Z := Z.of_N (N_of_ascii a).

(** ** Constants of the headers that are not part of the translation unit

    [inc/memlayout.h] and [kernel/console.h] supply these names; the
    development is parametric in their values. *)
Class console_h := {
  KERNBASE : Z;
  CGA_BUFF : Z;
  MONO_BUFF : Z;
  CGA_BASE : Z;
  KBSTATP : Z;
  KBS_DIB : Z;
  KBDATAP : Z;
  KEY_HOME : Z;
  KEY_END : Z;
  KEY_UP : Z;
  KEY_DN : Z;
  KEY_LF : Z;
  KEY_RT : Z;
  KEY_PGUP : Z;
  KEY_PGDN : Z;
  KEY_INS : Z;
  KEY_DEL : Z
}.

(** The values these names have on a PC (those of the JOS headers the
    file derives from); used to run the model on concrete inputs. *)
Definition pc_console_h : console_h := {|
  KERNBASE := 0xF0000000;
  CGA_BUFF := 0xB8000;
  MONO_BUFF := 0xB0000;
  CGA_BASE := 0x3D4;
  KBSTATP := 0x64;
  KBS_DIB := 0x01;
  KBDATAP := 0x60;
  KEY_HOME := 0xE0;
  KEY_END := 0xE1;
  KEY_UP := 0xE2;
  KEY_DN := 0xE3;
  KEY_LF := 0xE4;
  KEY_RT := 0xE5;
  KEY_PGUP := 0xE6;
  KEY_PGDN := 0xE7;
  KEY_INS := 0xE8;
  KEY_DEL := 0xE9
|}.

(** ** The platform *)

(** One observable access of the CPU to a device, with the value moved. *)
Inductive io_event :=
| In_b (port val : Z)
| Out_b (port val : Z)
| Mem_rd (addr val : Z)
| Mem_wr (addr val : Z).

(** The devices.  [port_in] is the byte a port delivers after the given
    history (most recent event first).  A display cell that is backed by
    memory keeps what is stored in it; a cell that is not backed drops
    stores and reads as whatever [vram_float] says. *)
Record hardware := {
  port_in : list io_event -> Z -> Z;
  vram_backed : Z -> bool;
  vram_float : list io_event -> Z -> Z
}.

(** ** Program state: the file's static variables and the world *)

Definition CONSBUFSIZE : Z := 512.

Record machine := {
  trace : list io_event;
  vram : Z -> Z;
  serial_exists : bool;
  addr_6845 : Z;
  crt_buf : Z;
  crt_pos : Z;
  shift : Z;
  cons_buf : list Z;
  cons_rpos : Z;
  cons_wpos : Z
}.

Definition set_trace (t : list io_event) (m : machine) : machine :=
  {| trace := t; vram := vram m; serial_exists := serial_exists m;
     addr_6845 := addr_6845 m; crt_buf := crt_buf m; crt_pos := crt_pos m;
     shift := shift m; cons_buf := cons_buf m; cons_rpos := cons_rpos m;
     cons_wpos := cons_wpos m |}.

Definition set_vram (v : Z -> Z) (m : machine) : machine :=
  {| trace := trace m; vram := v; serial_exists := serial_exists m;
     addr_6845 := addr_6845 m; crt_buf := crt_buf m; crt_pos := crt_pos m;
     shift := shift m; cons_buf := cons_buf m; cons_rpos := cons_rpos m;
     cons_wpos := cons_wpos m |}.

Definition set_serial_exists (b : bool) (m : machine) : machine :=
  {| trace := trace m; vram := vram m; serial_exists := b;
     addr_6845 := addr_6845 m; crt_buf := crt_buf m; crt_pos := crt_pos m;
     shift := shift m; cons_buf := cons_buf m; cons_rpos := cons_rpos m;
     cons_wpos := cons_wpos m |}.

Definition set_addr_6845 (a : Z) (m : machine) : machine :=
  {| trace := trace m; vram := vram m; serial_exists := serial_exists m;
     addr_6845 := a; crt_buf := crt_buf m; crt_pos := crt_pos m;
     shift := shift m; cons_buf := cons_buf m; cons_rpos := cons_rpos m;
     cons_wpos := cons_wpos m |}.

Definition set_crt_buf (a : Z) (m : machine) : machine :=
  {| trace := trace m; vram := vram m; serial_exists := serial_exists m;
     addr_6845 := addr_6845 m; crt_buf := a; crt_pos := crt_pos m;
     shift := shift m; cons_buf := cons_buf m; cons_rpos := cons_rpos m;
     cons_wpos := cons_wpos m |}.

Definition set_crt_pos (p : Z) (m : machine) : machine :=
  {| trace := trace m; vram := vram m; serial_exists := serial_exists m;
     addr_6845 := addr_6845 m; crt_buf := crt_buf m; crt_pos := p;
     shift := shift m; cons_buf := cons_buf m; cons_rpos := cons_rpos m;
     cons_wpos := cons_wpos m |}.

Definition set_shift (s : Z) (m : machine) : machine :=
  {| trace := trace m; vram := vram m; serial_exists := serial_exists m;
     addr_6845 := addr_6845 m; crt_buf := crt_buf m; crt_pos := crt_pos m;
     shift := s; cons_buf := cons_buf m; cons_rpos := cons_rpos m;
     cons_wpos := cons_wpos m |}.

Definition set_cons_buf (b : list Z) (m : machine) : machine :=
  {| trace := trace m; vram := vram m; serial_exists := serial_exists m;
     addr_6845 := addr_6845 m; crt_buf := crt_buf m; crt_pos := crt_pos m;
     shift := shift m; cons_buf := b; cons_rpos := cons_rpos m;
     cons_wpos := cons_wpos m |}.

Definition set_cons_rpos (p : Z) (m : machine) : machine :=
  {| trace := trace m; vram := vram m; serial_exists := serial_exists m;
     addr_6845 := addr_6845 m; crt_buf := crt_buf m; crt_pos := crt_pos m;
     shift := shift m; cons_buf := cons_buf m; cons_rpos := p;
     cons_wpos := cons_wpos m |}.

Definition set_cons_wpos (p : Z) (m : machine) : machine :=
  {| trace := trace m; vram := vram m; serial_exists := serial_exists m;
     addr_6845 := addr_6845 m; crt_buf := crt_buf m; crt_pos := crt_pos m;
     shift := shift m; cons_buf := cons_buf m; cons_rpos := cons_rpos m;
     cons_wpos := p |}.

(** Static storage is zero-initialised: the state in which the kernel
    enters [console_init], for a given content of display memory. *)
Definition boot (display : Z -> Z) : machine :=
  {| trace := []; vram := display; serial_exists := false;
     addr_6845 := 0; crt_buf := 0; crt_pos := 0; shift := 0;
     cons_buf := repeat 0 (Z.to_nat CONSBUFSIZE);
     cons_rpos := 0; cons_wpos := 0 |}.

(** ** A state monad for the straight-line code *)

Definition M (A : Type) : Type := machine -> A * machine.

Definition ret {A} (a : A) : M A := fun m => (a, m).

Definition bind {A B} (c : M A) (k : A -> M B) : M B :=
  fun m => let (a, m1) := c m in k a m1.

Notation "'let*' x ':=' c 'in' k" := (bind c (fun x => k))
  (at level 10, x pattern, c at level 100, k at level 200).

Definition modify (f : machine -> machine) : M unit := fun m => (tt, f m).

Definition gets {A} (f : machine -> A) : M A := fun m => (f m, m).

(** Array element [t[i]] of a C array of integers; the arrays of this
    file are only indexed inside their bounds. *)
Definition idx (t : list Z) (i : Z) : Z := nth (Z.to_nat i) t 0.

(** A C array initialiser for [n] elements of type [uint8_t]: a list of
    positional values followed by designated ones; everything else is
    zero. *)
Definition c_array (n : nat) (positional : list Z) (designated : list (Z * Z)) : list Z :=
  map u8
    (fold_left (fun a iv => <[Z.to_nat (fst iv) := snd iv]> a) designated
       (take n (positional ++ repeat 0 n))).

(** ** Serial I/O code *)

Definition COM1 : Z := 0x3f8.
Definition COM_RX : Z := 0.
Definition COM_TX : Z := 0.
Definition COM_DLL : Z := 0.
Definition COM_DLM : Z := 1.
Definition COM_IER : Z := 1.
Definition COM_IER_RDI : Z := 0x01.
Definition COM_IIR : Z := 2.
Definition COM_FCR : Z := 2.
Definition COM_LCR : Z := 3.
Definition COM_LCR_DLAB : Z := 0x80.
Definition COM_LCR_WLEN8 : Z := 0x03.
Definition COM_MCR : Z := 4.
Definition COM_LSR : Z := 5.
Definition COM_LSR_DATA : Z := 0x01.
Definition COM_LSR_TXRDY : Z := 0x20.

(** ** Keyboard input code: modifier bits and scancode tables *)

Definition NO : Z := 0.
Definition SHIFT : Z := Z.shiftl 1 0.
Definition CTL : Z := Z.shiftl 1 1.
Definition ALT : Z := Z.shiftl 1 2.
Definition CAPSLOCK : Z := Z.shiftl 1 3.
Definition NUMLOCK : Z := Z.shiftl 1 4.
Definition SCROLLLOCK : Z := Z.shiftl 1 5.
Definition E0ESC : Z := Z.shiftl 1 6.

Definition shiftcode : list Z :=
  c_array 256 []
    [ (0x1D, CTL); (0x2A, SHIFT); (0x36, SHIFT); (0x38, ALT);
      (0x9D, CTL); (0xB8, ALT) ].

Definition togglecode : list Z :=
  c_array 256 []
    [ (0x3A, CAPSLOCK); (0x45, NUMLOCK); (0x46, SCROLLLOCK) ].

(** The macro [C(x)], that is [x - '@']. *)
Definition C (x : Z) : Z := x - chr "@".

Section Console.

Context {hdr : console_h} (hw : hardware).

Definition normalmap : list Z :=
  c_array 256
    [ NO; 0x1B; chr "1"; chr "2"; chr "3"; chr "4"; chr "5"; chr "6";
      chr "7"; chr "8"; chr "9"; chr "0"; chr "-"; chr "="; 8; 9;
      chr "q"; chr "w"; chr "e"; chr "r"; chr "t"; chr "y"; chr "u"; chr "i";
      chr "o"; chr "p"; chr "["; chr "]"; 10; NO; chr "a"; chr "s";
      chr "d"; chr "f"; chr "g"; chr "h"; chr "j"; chr "k"; chr "l"; chr ";";
      39; chr "`"; NO; 92; chr "z"; chr "x"; chr "c"; chr "v";
      chr "b"; chr "n"; chr "m"; chr ","; chr "."; chr "/"; NO; chr "*";
      NO; chr " "; NO; NO; NO; NO; NO; NO;
      NO; NO; NO; NO; NO; NO; NO; chr "7";
      chr "8"; chr "9"; chr "-"; chr "4"; chr "5"; chr "6"; chr "+"; chr "1";
      chr "2"; chr "3"; chr "0"; chr "."; NO; NO; NO; NO ]
    [ (0xC7, KEY_HOME); (0x9C, 10);
      (0xB5, chr "/"); (0xC8, KEY_UP);
      (0xC9, KEY_PGUP); (0xCB, KEY_LF);
      (0xCD, KEY_RT); (0xCF, KEY_END);
      (0xD0, KEY_DN); (0xD1, KEY_PGDN);
      (0xD2, KEY_INS); (0xD3, KEY_DEL) ].

Definition shiftmap : list Z :=
  c_array 256
    [ NO; 27; chr "!"; chr "@"; chr "#"; chr "$"; chr "%"; chr "^";
      chr "&"; chr "*"; chr "("; chr ")"; chr "_"; chr "+"; 8; 9;
      chr "Q"; chr "W"; chr "E"; chr "R"; chr "T"; chr "Y"; chr "U"; chr "I";
      chr "O"; chr "P"; chr "{"; chr "}"; 10; NO; chr "A"; chr "S";
      chr "D"; chr "F"; chr "G"; chr "H"; chr "J"; chr "K"; chr "L"; chr ":";
      34; chr "~"; NO; chr "|"; chr "Z"; chr "X"; chr "C"; chr "V";
      chr "B"; chr "N"; chr "M"; chr "<"; chr ">"; chr "?"; NO; chr "*";
      NO; chr " "; NO; NO; NO; NO; NO; NO;
      NO; NO; NO; NO; NO; NO; NO; chr "7";
      chr "8"; chr "9"; chr "-"; chr "4"; chr "5"; chr "6"; chr "+"; chr "1";
      chr "2"; chr "3"; chr "0"; chr "."; NO; NO; NO; NO ]
    [ (0xC7, KEY_HOME); (0x9C, 10);
      (0xB5, chr "/"); (0xC8, KEY_UP);
      (0xC9, KEY_PGUP); (0xCB, KEY_LF);
      (0xCD, KEY_RT); (0xCF, KEY_END);
      (0xD0, KEY_DN); (0xD1, KEY_PGDN);
      (0xD2, KEY_INS); (0xD3, KEY_DEL) ].

Definition ctlmap : list Z :=
  c_array 256
    [ NO; NO; NO; NO; NO; NO; NO; NO;
      NO; NO; NO; NO; NO; NO; NO; NO;
      C (chr "Q"); C (chr "W"); C (chr "E"); C (chr "R");
      C (chr "T"); C (chr "Y"); C (chr "U"); C (chr "I");
      C (chr "O"); C (chr "P"); NO; NO; 13; NO; C (chr "A"); C (chr "S");
      C (chr "D"); C (chr "F"); C (chr "G"); C (chr "H");
      C (chr "J"); C (chr "K"); C (chr "L"); NO;
      NO; NO; NO; C 92; C (chr "Z"); C (chr "X"); C (chr "C"); C (chr "V");
      C (chr "B"); C (chr "N"); C (chr "M"); NO; NO; C (chr "/"); NO; NO ]
    [ (0x97, KEY_HOME);
      (0xB5, C (chr "/")); (0xC8, KEY_UP);
      (0xC9, KEY_PGUP); (0xCB, KEY_LF);
      (0xCD, KEY_RT); (0xCF, KEY_END);
      (0xD0, KEY_DN); (0xD1, KEY_PGDN);
      (0xD2, KEY_INS); (0xD3, KEY_DEL) ].

Definition charcode : list (list Z) :=
  [ normalmap; shiftmap; ctlmap; ctlmap ].

(** ** Port and display-memory access *)

(** [inb(port)]: the device answers, the read enters the history. *)
Definition inb (port : Z) : M Z := fun m =>
  let v := u8 (port_in hw (trace m) port) in
  (v, set_trace (In_b port v :: trace m) m).

(** [outb(port, data)] with [data] converted to [uint8_t]. *)
Definition outb (port data : Z) : M unit := fun m =>
  (tt, set_trace (Out_b port (u8 data) :: trace m) m).

(** A volatile 16-bit load [*cp]. *)
Definition load16 (cp : Z) : M Z := fun m =>
  let v := if vram_backed hw cp then u16 (vram m cp)
           else u16 (vram_float hw (trace m) cp) in
  (v, set_trace (Mem_rd cp v :: trace m) m).

(** A volatile 16-bit store [*cp = v]. *)
Definition store16 (cp v : Z) : M unit := fun m =>
  let m1 := set_trace (Mem_wr cp (u16 v) :: trace m) m in
  (tt, if vram_backed hw cp
       then set_vram (fun a => if a =? cp then u16 v else vram m a) m1
       else m1).

Definition delay : M unit :=
  let* _ := inb 0x84 in
  let* _ := inb 0x84 in
  let* _ := inb 0x84 in
  let* _ := inb 0x84 in
  ret tt.

(** The loop
    [for (int i = 0; !(inb(port) & mask) && i < 12800; ++i) delay();]
    shared by [serial_putc] and [lpt_putc].  [budget] is [12800 - i];
    the status port is read before the bound is tested, as in the
    source.  The result is the final value of [i], counted from [i]. *)
Fixpoint spin_wait (port mask : Z) (budget : nat) (i : Z) : M Z :=
  let* st := inb port in
  if Z.land st mask =? 0 then
    match budget with
    | O => ret i
    | S budget' => let* _ := delay in spin_wait port mask budget' (i + 1)
    end
  else ret i.

Definition serial_proc_data : M Z :=
  let* st := inb (COM1 + COM_LSR) in
  if Z.land st COM_LSR_DATA =? 0 then ret (-1)
  else inb (COM1 + COM_RX).

Definition serial_putc (c : Z) : M unit :=
  let* _ := spin_wait (COM1 + COM_LSR) COM_LSR_TXRDY (Z.to_nat 12800) 0 in
  outb (COM1 + COM_TX) c.

(** The statement that latches [serial_exists] is read with its missing
    terminator restored. *)
Definition serial_init : M unit :=
  let* _ := outb (COM1 + COM_FCR) 0 in
  let* _ := outb (COM1 + COM_LCR) COM_LCR_DLAB in
  let* _ := outb (COM1 + COM_DLL) (u8 (115200 / 9600)) in
  let* _ := outb (COM1 + COM_DLM) 0 in
  let* _ := outb (COM1 + COM_LCR) (Z.land COM_LCR_WLEN8 (Z.lnot COM_LCR_DLAB)) in
  let* _ := outb (COM1 + COM_MCR) 0 in
  let* _ := outb (COM1 + COM_IER) COM_IER_RDI in
  let* lsr := inb (COM1 + COM_LSR) in
  let* _ := modify (set_serial_exists (negb (lsr =? 0xff))) in
  let* _ := inb (COM1 + COM_IIR) in
  let* _ := inb (COM1 + COM_RX) in
  ret tt.

(** ** Parallel port output code *)

Definition lpt_putc (c : Z) : M unit :=
  let* _ := spin_wait (0x378 + 1) 0x80 (Z.to_nat 12800) 0 in
  let* _ := outb (0x378 + 0) c in
  let* _ := outb (0x378 + 2) (Z.lor (Z.lor 0x08 0x04) 0x01) in
  outb (0x378 + 2) 0x08.

(** ** Text-mode CGA/VGA display *)

Definition cga_init : M unit :=
  let cp := KERNBASE + CGA_BUFF in
  let* was := load16 cp in
  let* _ := store16 cp 0xa55a in
  let* probe := load16 cp in
  let* cp :=
    if negb (probe =? 0xa55a) then
      let* _ := modify (set_addr_6845 (u32 MONO_BUFF)) in
      ret (KERNBASE + MONO_BUFF)
    else
      let* _ := store16 cp was in
      let* _ := modify (set_addr_6845 (u32 CGA_BASE)) in
      ret cp in
  let* a := gets addr_6845 in
  let* _ := outb a 14 in
  let* hi := inb (a + 1) in
  let pos := Z.shiftl hi 8 in
  let* a := gets addr_6845 in
  let* _ := outb a 15 in
  let* lo := inb (a + 1) in
  let pos := Z.lor pos lo in
  let* _ := modify (set_crt_buf cp) in
  modify (set_crt_pos (u16 pos)).

(** ** Keyboard input code *)

(** The body of [kbd_proc_data] from the test [data == 0xe0] on: the
    decoder proper, applied to the byte read from the data port.  The
    variable [c], which the source leaves undeclared, is an [int]. *)
Definition kbd_decode (data : Z) : M Z :=
  if data =? 0xe0 then
    let* _ := modify (fun m => set_shift (Z.lor (shift m) E0ESC) m) in
    ret 0
  else if negb (Z.land data 0x80 =? 0) then
    let* s := gets shift in
    let data := if negb (Z.land s E0ESC =? 0) then data else Z.land data 0x7f in
    let* _ := modify (fun m =>
      set_shift (Z.land (shift m) (u32 (Z.lnot (Z.lor (idx shiftcode data) E0ESC)))) m) in
    ret 0
  else
    let* s := gets shift in
    let* data :=
      if negb (Z.land s E0ESC =? 0) then
        let* _ := modify (fun m =>
          set_shift (Z.land (shift m) (u32 (Z.lnot E0ESC))) m) in
        ret (u8 (Z.lor data 0x80))
      else ret data in
    let* _ := modify (fun m => set_shift (Z.lor (shift m) (idx shiftcode data)) m) in
    let* _ := modify (fun m => set_shift (Z.lxor (shift m) (idx togglecode data)) m) in
    let* s := gets shift in
    let c := idx (nth (Z.to_nat (Z.land s (Z.lor CTL SHIFT))) charcode []) data in
    let c :=
      if negb (Z.land s CAPSLOCK =? 0) then
        if (chr "a" <=? c) && (c <=? chr "z") then c + (chr "A" - chr "a")
        else if (chr "A" <=? c) && (c <=? chr "Z") then c + (chr "a" - chr "A")
        else c
      else c in
    let* _ :=
      if (Z.land (u32 (Z.lnot s)) (Z.lor CTL ALT) =? 0) && (c =? KEY_DEL)
      then outb 0x92 0x3
      else ret tt in
    ret c.

Definition kbd_proc_data : M Z :=
  let* st := inb KBSTATP in
  if Z.land st KBS_DIB =? 0 then ret (-1)
  else
    let* data := inb KBDATAP in
    kbd_decode data.

(** ** General device-independent console code *)

(** What one round of the loop of [cons_intr] does with a character
    [c] that is neither [-1] nor [0]: [cons.buf[cons.wpos++] = c]
    followed by the wrap of [cons.wpos]. *)
Definition cons_store (c : Z) (m : machine) : machine :=
  let m1 := set_cons_buf (<[Z.to_nat (cons_wpos m) := u8 c]> (cons_buf m)) m in
  let m2 := set_cons_wpos (u32 (cons_wpos m1 + 1)) m1 in
  if cons_wpos m2 =? CONSBUFSIZE then set_cons_wpos 0 m2 else m2.

(** [cons_intr(proc)].  The loop runs for as long as [proc] delivers, so
    it is given [fuel]; [None] means that the fuel ran out. *)
Fixpoint cons_intr (fuel : nat) (proc : M Z) (m : machine) : option machine :=
  match fuel with
  | O => None
  | S fuel' =>
    let (c, m1) := proc m in
    if c =? -1 then Some m1
    else if c =? 0 then cons_intr fuel' proc m1
    else cons_intr fuel' proc (cons_store c m1)
  end.

Definition serial_intr (fuel : nat) (m : machine) : option machine :=
  if serial_exists m then cons_intr fuel serial_proc_data m else Some m.

(** [kbd_intr] names its callee [console_intr]; the file defines no such
    function and the drain routine it means is [cons_intr]. *)
Definition kbd_intr (fuel : nat) (m : machine) : option machine :=
  cons_intr fuel kbd_proc_data m.

Definition cons_getc (fuel : nat) (m : machine) : option (Z * machine) :=
  match serial_intr fuel m with
  | None => None
  | Some m1 =>
    match kbd_intr fuel m1 with
    | None => None
    | Some m2 =>
      if negb (cons_rpos m2 =? cons_wpos m2) then
        let c := idx (cons_buf m2) (cons_rpos m2) in
        let m3 := set_cons_rpos (u32 (cons_rpos m2 + 1)) m2 in
        let m4 := if cons_rpos m3 =? CONSBUFSIZE then set_cons_rpos 0 m3 else m3 in
        Some (c, m4)
      else Some (-1, m2)
    end
  end.

(** [getchar]: [while ((c = cons_getc()) == 0) ;] then [return c]. *)
Fixpoint getchar (fuel : nat) (m : machine) : option (Z * machine) :=
  match fuel with
  | O => None
  | S fuel' =>
    match cons_getc fuel' m with
    | None => None
    | Some (c, m1) => if c =? 0 then getchar fuel' m1 else Some (c, m1)
    end
  end.

Definition iscons (fdnum : Z) : Z := 1.

End Console.

Arguments cons_store : simpl never.

(** ** Observations on the I/O history *)

(** The port writes of a history, most recent first. *)
Fixpoint outs (t : list io_event) : list (Z * Z) :=
  match t with
  | [] => []
  | Out_b p v :: t' => (p, v) :: outs t'
  | _ :: t' => outs t'
  end.

(** How many times port [p] was read. *)
Fixpoint count_in (p : Z) (t : list io_event) : Z :=
  match t with
  | [] => 0
  | In_b q _ :: t' => (if q =? p then 1 else 0) + count_in p t'
  | _ :: t' => count_in p t'
  end.

(** The display-memory accesses of a history, most recent first. *)
Fixpoint mem_events (t : list io_event) : list io_event :=
  match t with
  | [] => []
  | Mem_rd a v :: t' => Mem_rd a v :: mem_events t'
  | Mem_wr a v :: t' => Mem_wr a v :: mem_events t'
  | _ :: t' => mem_events t'
  end.


(** ** The ring buffer as a queue *)

Definition ring_wf (m : machine) : Prop :=
  length (cons_buf m) = Z.to_nat CONSBUFSIZE /\
  0 <= cons_rpos m < CONSBUFSIZE /\
  0 <= cons_wpos m < CONSBUFSIZE.

(** Number of unread bytes: the distance from [rpos] to [wpos] around
    the ring. *)
Definition ring_count (m : machine) : Z :=
  (cons_wpos m - cons_rpos m) mod CONSBUFSIZE.

(** The unread bytes, oldest first: [buf[rpos]], [buf[rpos+1]], ... up
    to but excluding [buf[wpos]], indices taken around the ring. *)
Definition ring_contents (m : machine) : list Z :=
  map (fun k : nat => idx (cons_buf m) ((cons_rpos m + Z.of_nat k) mod CONSBUFSIZE))
      (seq 0 (Z.to_nat (ring_count m))).

(** Index [i] lies between [r] (included) and [w] (excluded) around the
    ring. *)
Definition between (r w i : Z) : Prop :=
  if r <=? w then r <= i < w
  else r <= i < CONSBUFSIZE \/ 0 <= i < w.

(** What a queue of capacity 511 that forgets everything when it
    overflows does on a push. *)
Definition ring_push (l : list Z) (c : Z) : list Z :=
  if Z.of_nat (length l) =? CONSBUFSIZE - 1 then [] else l ++ [c].

(** One round of the loop of [cons_intr] on a character other than [-1]. *)
Definition cons_feed (m : machine) (c : Z) : machine :=
  if c =? 0 then m else cons_store c m.

(** The variables of the ring buffer. *)
Definition ring (m : machine) : list Z * Z * Z :=
  (cons_buf m, cons_rpos m, cons_wpos m).

(** A consumer that calls [cons_getc] [n] times and collects what it
    returns. *)
Fixpoint pops {hdr : console_h} (hw : hardware) (fuel n : nat) (m : machine)
  : option (list Z * machine) :=
  match n with
  | O => Some ([], m)
  | S n' =>
    match cons_getc hw fuel m with
    | None => None
    | Some (c, m1) =>
      match pops hw fuel n' m1 with
      | None => None
      | Some (cs, m2) => Some (c :: cs, m2)
      end
    end
  end.

(** ** Device behaviours *)

(** The keyboard controller never reports a byte. *)
Definition kbd_silent {hdr : console_h} (hw : hardware) : Prop :=
  forall h, Z.land (u8 (port_in hw h KBSTATP)) KBS_DIB = 0.

(** From history [t] on the UART never reports received data. *)
Definition serial_dry (hw : hardware) (t : list io_event) : Prop :=
  forall t', Z.land (u8 (port_in hw (t' ++ t) (COM1 + COM_LSR))) COM_LSR_DATA = 0.

(** The UART holds the bytes [bs] for a CPU that has read the receive
    register [base] times so far: it reports data for as long as fewer
    than [length bs] further reads have happened, and each read of the
    receive register delivers the next byte. *)
Definition serial_delivers (hw : hardware) (base : Z) (bs : list Z) : Prop :=
  forall h,
    let k := count_in (COM1 + COM_RX) h - base in
    0 <= k ->
    if k <? Z.of_nat (length bs)
    then Z.land (u8 (port_in hw h (COM1 + COM_LSR))) COM_LSR_DATA <> 0 /\
         u8 (port_in hw h (COM1 + COM_RX)) = nth (Z.to_nat k) bs 0
    else Z.land (u8 (port_in hw h (COM1 + COM_LSR))) COM_LSR_DATA = 0.

(** A PC whose UART and keyboard controller hold the given bytes; the
    transmitter and the printer are always ready and every display cell
    is backed by memory. *)
Definition pc_hw (serial_rx kbd_rx : list Z) : hardware := {|
  port_in := fun h p =>
    if p =? 0x3fd then
      if count_in 0x3f8 h <? Z.of_nat (length serial_rx) then 0x61 else 0x60
    else if p =? 0x3f8 then nth (Z.to_nat (count_in 0x3f8 h)) serial_rx 0
    else if p =? 0x64 then
      if count_in 0x60 h <? Z.of_nat (length kbd_rx) then 0x01 else 0x00
    else if p =? 0x60 then nth (Z.to_nat (count_in 0x60 h)) kbd_rx 0
    else if p =? 0x379 then 0x80
    else 0;
  vram_backed := fun _ => true;
  vram_float := fun _ _ => 0xffff
|}.

(** A PC without UART: the ports of COM1 float and read all ones; the
    keyboard holds nothing. *)
Definition no_serial_hw : hardware := {|
  port_in := fun _ p => if (0x3f8 <=? p) && (p <=? 0x3ff) then 0xff else 0;
  vram_backed := fun _ => true;
  vram_float := fun _ _ => 0xffff
|}.

(** A PC with a monochrome adapter only: the colour window is not
    backed by memory. *)
Definition mono_hw : hardware := {|
  port_in := fun _ _ => 0;
  vram_backed := fun a => negb (a =? 0xF0000000 + 0xB8000);
  vram_float := fun _ _ => 0xffff
|}.

(** The states the console can be in: those reached from the zeroed
    static storage by calling the functions of the file. *)
Inductive reachable {hdr : console_h} (hw : hardware) : machine -> Prop :=
| reach_boot d : reachable hw (boot d)
| reach_cga_init m : reachable hw m -> reachable hw (snd (cga_init hw m))
| reach_serial_init m : reachable hw m -> reachable hw (snd (serial_init hw m))
| reach_serial_putc c m : reachable hw m -> reachable hw (snd (serial_putc hw c m))
| reach_lpt_putc c m : reachable hw m -> reachable hw (snd (lpt_putc hw c m))
| reach_serial_intr fuel m m' :
    reachable hw m -> serial_intr hw fuel m = Some m' -> reachable hw m'
| reach_kbd_intr fuel m m' :
    reachable hw m -> kbd_intr hw fuel m = Some m' -> reachable hw m'
| reach_cons_getc fuel m c m' :
    reachable hw m -> cons_getc hw fuel m = Some (c, m') -> reachable hw m'
| reach_getchar fuel m c m' :
    reachable hw m -> getchar hw fuel m = Some (c, m') -> reachable hw m'.

(** What [n] successive pops return from a queue holding [l]: its
    elements in order, then [-1] for every pop that finds it empty. *)
Fixpoint drained (n : nat) (l : list Z) : list Z :=
  match n with
  | O => []
  | S n' => hd (-1) l :: drained n' (tl l)
  end.

(** A producer and a consumer in sequence: one call of [serial_intr]
    drains the UART into the ring, then [cons_getc] is called [n] times. *)
Definition push_pop {hdr : console_h} (hw : hardware) (fuel n : nat) (m : machine)
  : option (list Z) :=
  match serial_intr hw fuel m with
  | None => None
  | Some m1 => option_map fst (pops hw fuel n m1)
  end.

(** Sample input: [n] nonzero bytes, 1, 2, ..., 255, 1, 2, ... *)
Definition sample_bytes (n : nat) : list Z :=
  map (fun i : nat => Z.of_nat i mod 255 + 1) (seq 0 n).

(** The state after boot of a machine whose UART was detected. *)
Definition booted_with_serial : machine :=
  set_serial_exists true (boot (fun _ => 0)).

(** ** The decoder, described *)

(** What CapsLock does to a character. *)
Definition swap_case (c : Z) : Z :=
  if (chr "a" <=? c) && (c <=? chr "z") then c + (chr "A" - chr "a")
  else if (chr "A" <=? c) && (c <=? chr "Z") then c + (chr "a" - chr "A")
  else c.

(** The table slot a key press with scancode [data] selects when the
    modifier state is [s]: the extended slot after an E0 prefix. *)
Definition press_slot (s data : Z) : Z :=
  if Z.testbit s 6 then u8 (Z.lor data 0x80) else data.

(** The modifier state after a key press: the pending prefix is
    consumed, momentary modifiers of the key are set and its toggles
    flipped. *)
Definition press_shift (s data : Z) : Z :=
  let s1 := if Z.testbit s 6 then Z.land s (u32 (Z.lnot E0ESC)) else s in
  Z.lxor (Z.lor s1 (idx shiftcode (press_slot s data)))
         (idx togglecode (press_slot s data)).

(** Key codes of [kernel/console.h] are bytes outside ASCII. *)
Definition special_key (k : Z) : Prop := 0x80 <= k < 0x100.

(** ** The invariant of the ring buffer *)

(** The ring is well formed and none of its unread bytes is zero. *)
Definition ring_inv (m : machine) : Prop :=
  ring_wf m /\ Forall (fun b => b <> 0) (ring_contents m).

(** A source function as [cons_intr] expects it: it returns [-1] or a
    byte and leaves the ring buffer alone. *)
Definition byte_source (proc : M Z) : Prop :=
  forall m,
    (fst (proc m) = -1 \/ 0 <= fst (proc m) < 256) /\
    ring (snd (proc m)) = ring m.

(** ** Waiting for a status bit, described *)

(** The history after one call of [delay]: four reads of port 0x84,
    each answered by the device. *)
Definition delayed (hw : hardware) (t : list io_event) : list io_event :=
  let t1 := In_b 0x84 (u8 (port_in hw t 0x84)) :: t in
  let t2 := In_b 0x84 (u8 (port_in hw t1 0x84)) :: t1 in
  let t3 := In_b 0x84 (u8 (port_in hw t2 0x84)) :: t2 in
  In_b 0x84 (u8 (port_in hw t3 0x84)) :: t3.

(** [waited hw port mask budget t0 i t]: starting from history [t0], a
    CPU that waits for the bit [mask] of [port] with [budget] rounds to
    spend ends with history [t] after [i] rounds.  It reads the status
    port; if the bit is set it stops; if the bit is clear and no round
    is left it stops as well; otherwise it runs [delay] once and starts
    over with one round less. *)
Inductive waited (hw : hardware) (port mask : Z)
  : nat -> list io_event -> Z -> list io_event -> Prop :=
| waited_ready budget t :
    Z.land (u8 (port_in hw t port)) mask <> 0 ->
    waited hw port mask budget t 0 (In_b port (u8 (port_in hw t port)) :: t)
| waited_spent t :
    Z.land (u8 (port_in hw t port)) mask = 0 ->
    waited hw port mask O t 0 (In_b port (u8 (port_in hw t port)) :: t)
| waited_round budget t i t' :
    Z.land (u8 (port_in hw t port)) mask = 0 ->
    waited hw port mask budget
      (delayed hw (In_b port (u8 (port_in hw t port)) :: t)) i t' ->
    waited hw port mask (S budget) t (i + 1) t'.

(** ** The console facade *)

Section Facade.

Context (hw : hardware).

(** [cga_putc] is defined outside this file. *)
Context (cga_putc : Z -> M unit).

Definition cons_putc (c : Z) : M unit :=
  let* _ := serial_putc hw c in
  let* _ := lpt_putc hw c in
  cga_putc c.

Definition cputchar (c : Z) : M unit := cons_putc c.

End Facade.

(** A PC whose devices never raise a status bit: every port reads 0. *)
Definition stuck_hw : hardware := {|
  port_in := fun _ _ => 0;
  vram_backed := fun _ => true;
  vram_float := fun _ _ => 0xffff
|}.

(** Every element of [cons.buf] is a byte. *)
Definition buf_bytes (m : machine) : Prop :=
  Forall (fun b => 0 <= b < 256) (cons_buf m).

(** The variables the input path works on. *)
Definition input_vars (m : machine) : Z * (list Z * Z * Z) := (shift m, ring m).

(** A state with one unread byte just before the end of the array:
    [rpos] is 510, [wpos] is 511 and [buf[510]] holds 7. *)
Definition wrapped_state : machine :=
  set_cons_buf (<[510%nat := 7]> (repeat 0 (Z.to_nat CONSBUFSIZE)))
    (set_cons_rpos 510 (set_cons_wpos 511 booted_with_serial)).

(** The keyboard controller holds the bytes [codes] for a CPU that has
    read the data port [base] times so far. *)
Definition kbd_delivers {hdr : console_h} (hw : hardware) (base : Z) (codes : list Z)
  : Prop :=
  forall h,
    let k := count_in KBDATAP h - base in
    0 <= k ->
    if k <? Z.of_nat (length codes)
    then Z.land (u8 (port_in hw h KBSTATP)) KBS_DIB <> 0 /\
         u8 (port_in hw h KBDATAP) = nth (Z.to_nat k) codes 0
    else Z.land (u8 (port_in hw h KBSTATP)) KBS_DIB = 0.

(** The scancodes [codes] decoded one after the other, each character
    other than 0 stored in the ring: the rounds of [cons_intr] over
    [kbd_proc_data] without their port reads. *)
Fixpoint kbd_feed {hdr : console_h} (codes : list Z) (m : machine) : machine :=
  match codes with
  | [] => m
  | code :: rest =>
    let (c, m1) := kbd_decode code m in
    kbd_feed rest (cons_feed m1 c)
  end.
(** * Properties *)

Lemma count_in_nonneg p t : 0 <= count_in p t.
Proof.
  induction t as [|e t IH]; simpl; [lia|].
  destruct e; try assumption. destruct (_ =? _); lia.
Qed.

Lemma count_in_app p t t' : count_in p (t' ++ t) = count_in p t' + count_in p t.
Proof.
  induction t' as [|e t' IH]; [reflexivity|].
  cbn [app count_in]. destruct e; rewrite IH; try reflexivity. lia.
Qed.

Lemma outs_app t t' : outs (t' ++ t) = outs t' ++ outs t.
Proof.
  induction t' as [|e t' IH]; [reflexivity|].
  cbn [app outs]. destruct e; rewrite IH; reflexivity.
Qed.

Lemma u8_range x : 0 <= u8 x < 256.
Proof. unfold u8. apply Z.mod_pos_bound. lia. Qed.

Lemma u8_small x : 0 <= x < 256 -> u8 x = x.
Proof. intros. unfold u8. apply Z.mod_small. assumption. Qed.

Lemma u32_small x : 0 <= x < 4294967296 -> u32 x = x.
Proof. intros. unfold u32. apply Z.mod_small. assumption. Qed.

(** A machine that differs from [m] in its history only. *)
Lemma set_trace_id m : set_trace (trace m) m = m.
Proof. destruct m; reflexivity. Qed.

Lemma set_trace_twice t t' m : set_trace t (set_trace t' m) = set_trace t m.
Proof. reflexivity. Qed.

(** ** Bounded transmit (serial and parallel) *)

Section Transmit.

Context (hw : hardware).

Lemma inb_run port m :
  inb hw port m =
  (u8 (port_in hw (trace m) port),
   set_trace (In_b port (u8 (port_in hw (trace m) port)) :: trace m) m).
Proof. reflexivity. Qed.

Lemma delay_run m :
  exists t, delay hw m = (tt, set_trace t m) /\
            outs t = outs (trace m) /\
            forall p, count_in p t =
                      count_in p (trace m) + (if 0x84 =? p then 4 else 0).
Proof.
  unfold delay, bind, ret. rewrite !inb_run. cbn [trace set_trace].
  eexists; split; [reflexivity|]. split; [reflexivity|].
  intros p. cbn [count_in]. destruct (0x84 =? p); lia.
Qed.

(** The wait loop, for any budget and any device: it ends with a count
    within the budget, has written nothing, and has read the status port
    once more than it has run [delay]. *)
Lemma spin_wait_run port mask (Hport : port <> 0x84) budget :
  forall i m,
    exists j t,
      spin_wait hw port mask budget i m = (j, set_trace t m) /\
      i <= j <= i + Z.of_nat budget /\
      outs t = outs (trace m) /\
      count_in 0x84 t = count_in 0x84 (trace m) + 4 * (j - i) /\
      count_in port t = count_in port (trace m) + (j - i) + 1.
Proof.
  assert (E1 : (port =? 0x84) = false) by (apply Z.eqb_neq; assumption).
  assert (E2 : (0x84 =? port) = false) by (apply Z.eqb_neq; congruence).
  induction budget as [|n IH]; intros i m.
  - exists i. cbn [spin_wait]. unfold bind. rewrite inb_run.
    eexists. split.
    + destruct (_ =? 0); unfold ret; reflexivity.
    + cbn [count_in outs]. rewrite Z.eqb_refl, E1. repeat split; lia.
  - cbn [spin_wait]. unfold bind at 1. rewrite inb_run.
    destruct (Z.land _ mask =? 0).
    + unfold bind at 1.
      destruct (delay_run (set_trace (In_b port (u8 (port_in hw (trace m) port)) :: trace m) m))
        as (t1 & Hd & Ho & Hc).
      rewrite Hd.
      destruct (IH (i + 1) (set_trace t1
                (set_trace (In_b port (u8 (port_in hw (trace m) port)) :: trace m) m)))
        as (j & t & Hs & Hj & Hout & H84 & Hp).
      exists j, t. rewrite Hs. split; [reflexivity|].
      cbn [trace set_trace] in *. rewrite Ho in Hout. rewrite !Hc in *.
      cbn [count_in outs] in *. rewrite Z.eqb_refl, E1, E2 in *.
      repeat split; try lia. assumption.
    + exists i. eexists. split; [reflexivity|]. cbn [count_in outs].
      rewrite Z.eqb_refl, E1. repeat split; lia.
Qed.

Lemma serial_putc_run (c : Z) (m : machine) :
  exists i t,
    serial_putc hw c m = (tt, set_trace t m) /\
    0 <= i <= 12800 /\
    count_in 0x84 t = count_in 0x84 (trace m) + 4 * i /\
    count_in (COM1 + COM_LSR) t = count_in (COM1 + COM_LSR) (trace m) + i + 1 /\
    outs t = (COM1 + COM_TX, u8 c) :: outs (trace m).
Proof.
  destruct (spin_wait_run (COM1 + COM_LSR) COM_LSR_TXRDY ltac:(discriminate)
              (Z.to_nat 12800) 0 m) as (j & t & Hs & Hj & Ho & H84 & Hp).
  rewrite Z2Nat.id in Hj by lia.
  exists j. eexists. unfold serial_putc, bind. rewrite Hs.
  unfold outb. cbn [trace set_trace]. split; [reflexivity|].
  cbn [count_in outs]. rewrite Ho, H84, Hp.
  repeat split; lia.
Qed.

Lemma lpt_putc_run (c : Z) (m : machine) :
  exists i t,
    lpt_putc hw c m = (tt, set_trace t m) /\
    0 <= i <= 12800 /\
    count_in 0x84 t = count_in 0x84 (trace m) + 4 * i /\
    count_in (0x378 + 1) t = count_in (0x378 + 1) (trace m) + i + 1 /\
    outs t = (0x378 + 2, 0x08) :: (0x378 + 2, 0x0d) :: (0x378 + 0, u8 c)
               :: outs (trace m).
Proof.
  destruct (spin_wait_run (0x378 + 1) 0x80 ltac:(discriminate)
              (Z.to_nat 12800) 0 m) as (j & t & Hs & Hj & Ho & H84 & Hp).
  rewrite Z2Nat.id in Hj by lia.
  exists j. eexists. unfold lpt_putc, bind. rewrite Hs.
  unfold outb. cbn [trace set_trace]. split; [reflexivity|].
  cbn [count_in outs]. rewrite Ho, H84, Hp.
  repeat split; lia.
Qed.

Lemma delay_delayed m : delay hw m = (tt, set_trace (delayed hw (trace m)) m).
Proof. reflexivity. Qed.

(** The wait loop does what [waited] describes. *)
Lemma spin_wait_waited port mask budget :
  forall i m,
    exists j t,
      spin_wait hw port mask budget i m = (i + j, set_trace t m) /\
      waited hw port mask budget (trace m) j t.
Proof.
  induction budget as [|n IH]; intros i m.
  - cbn [spin_wait]. unfold bind. rewrite inb_run.
    exists 0. eexists. rewrite Z.add_0_r.
    destruct (Z.land (u8 (port_in hw (trace m) port)) mask =? 0) eqn:E.
    + split; [reflexivity|]. apply waited_spent. apply Z.eqb_eq. exact E.
    + split; [reflexivity|]. apply waited_ready. apply Z.eqb_neq. exact E.
  - cbn [spin_wait]. unfold bind at 1. rewrite inb_run.
    destruct (Z.land (u8 (port_in hw (trace m) port)) mask =? 0) eqn:E.
    + unfold bind at 1. rewrite delay_delayed. cbn [trace set_trace].
      destruct (IH (i + 1)
                  (set_trace (delayed hw (In_b port (u8 (port_in hw (trace m) port))
                                            :: trace m))
                     (set_trace (In_b port (u8 (port_in hw (trace m) port))
                                   :: trace m) m)))
        as (j & t & Hs & Hw).
      exists (j + 1), t. rewrite Hs. split; [f_equal; lia|].
      apply waited_round; [apply Z.eqb_eq; exact E | exact Hw].
    + exists 0. eexists. rewrite Z.add_0_r. split; [reflexivity|].
      apply waited_ready. apply Z.eqb_neq. exact E.
Qed.

(** What a wait leaves in the history: the status read that ended it on
    top, which shows the bit unless the budget is spent; below it, for
    each of the [i] rounds, a status read that showed the bit clear and
    the four reads of [delay]; no port write. *)
Lemma waited_facts port mask (Hport : port <> 0x84) budget t0 i t :
  waited hw port mask budget t0 i t ->
  0 <= i <= Z.of_nat budget /\
  exists w,
    t = In_b port (u8 (port_in hw (w ++ t0) port)) :: w ++ t0 /\
    (Z.land (u8 (port_in hw (w ++ t0) port)) mask <> 0 \/ i = Z.of_nat budget) /\
    (forall v, In (In_b port v) w -> Z.land v mask = 0) /\
    outs w = [] /\
    count_in 0x84 w = 4 * i /\
    count_in port w = i.
Proof.
  assert (E1 : (port =? 0x84) = false) by (apply Z.eqb_neq; assumption).
  assert (E2 : (0x84 =? port) = false) by (apply Z.eqb_neq; congruence).
  induction 1 as [budget t Hr | t Hn | budget t i t' Hn _ IH].
  - split; [lia|]. exists []. cbn [app]. repeat split; auto.
    intros v [].
  - split; [lia|]. exists []. cbn [app]. repeat split; auto.
    intros v [].
  - destruct IH as (Hi & w & Ht & Hend & Hprev & Ho & H84 & Hp).
    split; [lia|].
    set (st := u8 (port_in hw t port)) in *.
    set (d1 := u8 (port_in hw (In_b port st :: t) 0x84)) in *.
    set (d2 := u8 (port_in hw (In_b 0x84 d1 :: In_b port st :: t) 0x84)) in *.
    set (d3 := u8 (port_in hw (In_b 0x84 d2 :: In_b 0x84 d1 :: In_b port st :: t)
                     0x84)) in *.
    set (d4 := u8 (port_in hw (In_b 0x84 d3 :: In_b 0x84 d2 :: In_b 0x84 d1
                                 :: In_b port st :: t) 0x84)) in *.
    assert (Hd : delayed hw (In_b port st :: t) =
                 [In_b 0x84 d4; In_b 0x84 d3; In_b 0x84 d2; In_b 0x84 d1;
                  In_b port st] ++ t) by reflexivity.
    rewrite Hd in Ht, Hend. rewrite app_assoc in Ht, Hend.
    exists (w ++ [In_b 0x84 d4; In_b 0x84 d3; In_b 0x84 d2; In_b 0x84 d1;
                  In_b port st]).
    split; [exact Ht|]. split; [destruct Hend; [left; assumption | right; lia]|].
    split; [|split; [|split]].
    + intros v Hin. apply in_app_or in Hin. destruct Hin as [Hin|Hin];
        [apply Hprev; exact Hin|].
      cbn [In] in Hin.
      destruct Hin as [E|[E|[E|[E|[E|[]]]]]]; inversion E; subst;
        try contradiction. exact Hn.
    + rewrite outs_app, Ho. reflexivity.
    + rewrite count_in_app, H84. cbn [count_in]. rewrite Z.eqb_refl, E1. lia.
    + rewrite count_in_app, Hp. cbn [count_in]. rewrite Z.eqb_refl, E2. lia.
Qed.

Lemma serial_putc_waited (c : Z) (m : machine) :
  exists i w,
    let st := u8 (port_in hw (w ++ trace m) (COM1 + COM_LSR)) in
    serial_putc hw c m =
      (tt, set_trace (Out_b (COM1 + COM_TX) (u8 c)
                        :: In_b (COM1 + COM_LSR) st :: w ++ trace m) m) /\
    waited hw (COM1 + COM_LSR) COM_LSR_TXRDY (Z.to_nat 12800) (trace m) i
      (In_b (COM1 + COM_LSR) st :: w ++ trace m) /\
    0 <= i <= 12800 /\
    (Z.land st COM_LSR_TXRDY <> 0 \/ i = 12800) /\
    (forall v, In (In_b (COM1 + COM_LSR) v) w -> Z.land v COM_LSR_TXRDY = 0) /\
    outs w = [] /\
    count_in 0x84 w = 4 * i /\
    count_in (COM1 + COM_LSR) w = i.
Proof.
  destruct (spin_wait_waited (COM1 + COM_LSR) COM_LSR_TXRDY (Z.to_nat 12800) 0 m)
    as (i & t & Hs & Hw).
  destruct (waited_facts (COM1 + COM_LSR) COM_LSR_TXRDY ltac:(discriminate)
              _ _ _ _ Hw)
    as (Hi & w & Ht & Hend & Hprev & Ho & H84 & Hp).
  rewrite Z2Nat.id in Hi, Hend by lia.
  exists i, w. cbv zeta. rewrite <- Ht.
  unfold serial_putc, bind. rewrite Hs. unfold outb. cbn [trace set_trace].
  repeat split; try assumption; lia.
Qed.

Lemma lpt_putc_waited (c : Z) (m : machine) :
  exists i w,
    let st := u8 (port_in hw (w ++ trace m) (0x378 + 1)) in
    lpt_putc hw c m =
      (tt, set_trace (Out_b (0x378 + 2) 0x08 :: Out_b (0x378 + 2) 0x0d
                        :: Out_b (0x378 + 0) (u8 c)
                        :: In_b (0x378 + 1) st :: w ++ trace m) m) /\
    waited hw (0x378 + 1) 0x80 (Z.to_nat 12800) (trace m) i
      (In_b (0x378 + 1) st :: w ++ trace m) /\
    0 <= i <= 12800 /\
    (Z.land st 0x80 <> 0 \/ i = 12800) /\
    (forall v, In (In_b (0x378 + 1) v) w -> Z.land v 0x80 = 0) /\
    outs w = [] /\
    count_in 0x84 w = 4 * i /\
    count_in (0x378 + 1) w = i.
Proof.
  destruct (spin_wait_waited (0x378 + 1) 0x80 (Z.to_nat 12800) 0 m)
    as (i & t & Hs & Hw).
  destruct (waited_facts (0x378 + 1) 0x80 ltac:(discriminate) _ _ _ _ Hw)
    as (Hi & w & Ht & Hend & Hprev & Ho & H84 & Hp).
  rewrite Z2Nat.id in Hi, Hend by lia.
  exists i, w. cbv zeta. rewrite <- Ht.
  unfold lpt_putc, bind. rewrite Hs. unfold outb. cbn [trace set_trace].
  repeat split; try assumption; lia.
Qed.

(** C7.  [serial_putc] and [lpt_putc] return for every behaviour of the
    devices, having waited for the ready bit and then written.  The
    wait is the one [waited] describes with a budget of 12800 rounds:
    it takes [i] rounds, [0 <= i <= 12800]; the status read that ends it
    shows the ready bit unless all 12800 rounds are spent; each of the
    [i] status reads before it showed the bit clear and was followed by
    one [delay]; nothing is written during the wait.  The write of the
    byte to the data port comes after the wait, whether the bit was seen
    or not, and is the only write of [serial_putc]; in [lpt_putc] the two
    strobe writes to the control port follow it.  No variable of the
    program changes. *)
Theorem putc_bounded_then_writes_once (c : Z) (m : machine) :
  (exists i w,
      let st := u8 (port_in hw (w ++ trace m) (COM1 + COM_LSR)) in
      serial_putc hw c m =
        (tt, set_trace (Out_b (COM1 + COM_TX) (u8 c)
                          :: In_b (COM1 + COM_LSR) st :: w ++ trace m) m) /\
      waited hw (COM1 + COM_LSR) COM_LSR_TXRDY (Z.to_nat 12800) (trace m) i
        (In_b (COM1 + COM_LSR) st :: w ++ trace m) /\
      0 <= i <= 12800 /\
      (Z.land st COM_LSR_TXRDY <> 0 \/ i = 12800) /\
      (forall v, In (In_b (COM1 + COM_LSR) v) w -> Z.land v COM_LSR_TXRDY = 0) /\
      outs w = [] /\
      count_in 0x84 w = 4 * i /\
      count_in (COM1 + COM_LSR) w = i) /\
  (exists i w,
      let st := u8 (port_in hw (w ++ trace m) (0x378 + 1)) in
      lpt_putc hw c m =
        (tt, set_trace (Out_b (0x378 + 2) 0x08 :: Out_b (0x378 + 2) 0x0d
                          :: Out_b (0x378 + 0) (u8 c)
                          :: In_b (0x378 + 1) st :: w ++ trace m) m) /\
      waited hw (0x378 + 1) 0x80 (Z.to_nat 12800) (trace m) i
        (In_b (0x378 + 1) st :: w ++ trace m) /\
      0 <= i <= 12800 /\
      (Z.land st 0x80 <> 0 \/ i = 12800) /\
      (forall v, In (In_b (0x378 + 1) v) w -> Z.land v 0x80 = 0) /\
      outs w = [] /\
      count_in 0x84 w = 4 * i /\
      count_in (0x378 + 1) w = i).
Proof. split; [apply serial_putc_waited | apply lpt_putc_waited]. Qed.

End Transmit.

(** ** The ring buffer *)

Lemma idx_insert_eq (l : list Z) (i : Z) (v : Z) :
  0 <= i < Z.of_nat (length l) -> idx (<[Z.to_nat i := v]> l) i = v.
Proof.
  intros H. unfold idx. rewrite nth_lookup, list_lookup_insert_eq by lia.
  reflexivity.
Qed.

Lemma idx_insert_ne (l : list Z) (i j : Z) (v : Z) :
  0 <= i -> 0 <= j -> i <> j -> idx (<[Z.to_nat i := v]> l) j = idx l j.
Proof.
  intros Hi Hj H. unfold idx. rewrite !nth_lookup, list_lookup_insert_ne by lia.
  reflexivity.
Qed.

Lemma ring_count_range m : 0 <= ring_count m < CONSBUFSIZE.
Proof. unfold ring_count, CONSBUFSIZE. apply Z.mod_pos_bound. lia. Qed.

Lemma ring_contents_length m :
  Z.of_nat (length (ring_contents m)) = ring_count m.
Proof.
  unfold ring_contents. rewrite length_map, length_seq.
  pose proof (ring_count_range m). lia.
Qed.

Lemma ring_contents_nil m :
  ring_wf m -> (ring_contents m = [] <-> cons_rpos m = cons_wpos m).
Proof.
  intros (_ & Hr & Hw).
  pose proof (ring_contents_length m) as HL.
  unfold ring_count, CONSBUFSIZE in *. split; intros H.
  - rewrite H in HL. cbn [length] in HL.
    assert (E : (cons_wpos m - cons_rpos m) mod 512 = 0) by lia.
    clear HL H.
    apply Z.mod_divide in E; [|lia]. destruct E as [q E]. lia.
  - destruct (ring_contents m); [reflexivity|].
    rewrite H, Z.sub_diag, Z.mod_0_l in HL by lia. cbn [length] in HL. lia.
Qed.

(** [cons_store] on a well-formed ring: the byte goes to [buf[wpos]] and
    [wpos] moves one step around the ring. *)
Lemma cons_store_wf c m :
  ring_wf m ->
  cons_store c m =
    set_cons_wpos ((cons_wpos m + 1) mod CONSBUFSIZE)
      (set_cons_buf (<[Z.to_nat (cons_wpos m) := u8 c]> (cons_buf m)) m).
Proof.
  intros (_ & _ & Hw). unfold cons_store, CONSBUFSIZE in *.
  cbn [cons_wpos set_cons_buf set_cons_wpos].
  rewrite u32_small by lia.
  destruct (cons_wpos m + 1 =? 512) eqn:E.
  - apply Z.eqb_eq in E. unfold set_cons_wpos. cbn. f_equal.
    rewrite E. reflexivity.
  - apply Z.eqb_neq in E. rewrite Z.mod_small by lia. reflexivity.
Qed.

Lemma cons_store_ring_wf c m : ring_wf m -> ring_wf (cons_store c m).
Proof.
  intros H. rewrite cons_store_wf by assumption.
  destruct H as (HL & Hr & Hw). unfold ring_wf, CONSBUFSIZE in *. cbn.
  rewrite length_insert. repeat split; try lia.
  all: apply Z.mod_pos_bound; lia.
Qed.

(** A store appends to the unread bytes, unless 511 bytes are unread
    already: then [wpos] catches up with [rpos] and the ring reads as
    empty. *)
Lemma ring_contents_store c m :
  ring_wf m ->
  ring_contents (cons_store c m) = ring_push (ring_contents m) (u8 c).
Proof.
  intros H. rewrite cons_store_wf by assumption.
  unfold ring_push. rewrite ring_contents_length.
  destruct H as (HL & Hr & Hw).
  unfold ring_contents, ring_count, CONSBUFSIZE in *.
  cbn [cons_buf cons_rpos cons_wpos set_cons_wpos set_cons_buf].
  change (512 - 1) with 511.
  set (r := cons_rpos m) in *. set (w := cons_wpos m) in *.
  set (n := (w - r) mod 512).
  assert (Hn : 0 <= n < 512) by (apply Z.mod_pos_bound; lia).
  assert (Hw' : (r + n) mod 512 = w).
  { subst n. rewrite Zplus_mod_idemp_r. replace (r + (w - r)) with w by lia.
    apply Z.mod_small; lia. }
  assert (Hn' : ((w + 1) mod 512 - r) mod 512 = (n + 1) mod 512).
  { subst n. rewrite Zminus_mod_idemp_l, Zplus_mod_idemp_l. f_equal. lia. }
  rewrite Hn'.
  destruct (n =? 511) eqn:E.
  - apply Z.eqb_eq in E. rewrite E. reflexivity.
  - apply Z.eqb_neq in E. rewrite Z.mod_small by lia.
    replace (Z.to_nat (n + 1)) with (Z.to_nat n + 1)%nat by lia.
    rewrite seq_app, map_app. cbn [seq map]. f_equal.
    + apply map_ext_in. intros k Hk. apply in_seq in Hk.
      apply idx_insert_ne; [lia| apply Z.mod_pos_bound; lia|].
      intros Heq. rewrite <- Hw' in Heq.
      assert (Hk' : 0 <= Z.of_nat k < n) by lia.
      revert Heq Hk' Hn Hr. generalize (Z.of_nat k). intros k' Heq Hk' Hn'' Hr'.
      rewrite (Z.mod_eq (r + n) 512), (Z.mod_eq (r + k') 512) in Heq by lia.
      assert ((r + n) / 512 = (r + k') / 512 \/ (r + n) / 512 = (r + k') / 512 + 1).
      { assert ((r + k') / 512 <= (r + n) / 512) by (apply Z.div_le_mono; lia).
        assert ((r + n) / 512 <= (r + k' + 512) / 512) by (apply Z.div_le_mono; lia).
        replace (r + k' + 512) with (r + k' + 1 * 512) in * by lia.
        rewrite Z.div_add in * by lia. lia. }
      lia.
    + rewrite Nat.add_0_l, Z2Nat.id by lia. rewrite Hw'.
      f_equal. apply idx_insert_eq. lia.
Qed.

Lemma cons_feed_ring_wf m c : ring_wf m -> ring_wf (cons_feed m c).
Proof.
  intros H. unfold cons_feed. destruct (c =? 0); [assumption|].
  apply cons_store_ring_wf. assumption.
Qed.

(** Taking the oldest unread byte out: what [cons_getc] does after it
    has polled the devices. *)
Lemma ring_contents_pop m :
  ring_wf m -> cons_rpos m <> cons_wpos m ->
  let m' := set_cons_rpos ((cons_rpos m + 1) mod CONSBUFSIZE) m in
  ring_wf m' /\
  ring_contents m = idx (cons_buf m) (cons_rpos m) :: ring_contents m'.
Proof.
  intros (HL & Hr & Hw) Hne m'. subst m'. split.
  - unfold ring_wf, CONSBUFSIZE in *. cbn. repeat split; try lia.
    all: apply Z.mod_pos_bound; lia.
  - unfold ring_contents, ring_count, CONSBUFSIZE in *.
    cbn [cons_buf cons_rpos cons_wpos set_cons_rpos].
    set (r := cons_rpos m) in *. set (w := cons_wpos m) in *.
    set (n := (w - r) mod 512).
    assert (Hn : 0 <= n < 512) by (apply Z.mod_pos_bound; lia).
    assert (Hn0 : n <> 0).
    { subst n. intros E. apply Z.mod_divide in E; [|lia].
      destruct E as [q E]. lia. }
    assert (Hn' : (w - (r + 1) mod 512) mod 512 = n - 1).
    { rewrite Zminus_mod_idemp_r.
      replace (w - (r + 1)) with ((w - r) + (-1)) by lia.
      rewrite <- Zplus_mod_idemp_l. fold n. apply Z.mod_small. lia. }
    rewrite Hn'.
    replace (Z.to_nat n) with (S (Z.to_nat (n - 1))) by lia.
    cbn [seq map]. f_equal.
    + rewrite Z.add_0_r, Z.mod_small by lia. reflexivity.
    + rewrite <- seq_shift, map_map. apply map_ext. intros k.
      f_equal. rewrite Zplus_mod_idemp_l. f_equal. lia.
Qed.

(** The queue discipline in the large: pushing [bs] into an empty ring
    leaves the bytes pushed since the last multiple of 512. *)
Lemma fold_ring_push bs :
  fold_left ring_push bs [] = skipn (512 * (length bs / 512)) bs.
Proof.
  induction bs as [|c bs IH] using rev_ind; [reflexivity|].
  rewrite fold_left_app. cbn [fold_left]. rewrite IH.
  rewrite length_app. cbn [length].
  pose proof (Nat.div_mod_eq (length bs) 512) as Hdm.
  pose proof (Nat.mod_upper_bound (length bs) 512 ltac:(lia)) as Hlt.
  set (q := (length bs / 512)%nat) in *.
  set (r := (length bs mod 512)%nat) in *.
  unfold ring_push, CONSBUFSIZE. rewrite length_skipn.
  destruct (Z.of_nat (length bs - 512 * q) =? 512 - 1) eqn:E.
  - apply Z.eqb_eq in E.
    assert (Hq : ((length bs + 1) / 512 = q + 1)%nat).
    { symmetry. apply (Nat.div_unique _ _ _ 0%nat); lia. }
    rewrite Hq. symmetry. apply skipn_all2. rewrite length_app. cbn [length]. lia.
  - apply Z.eqb_neq in E.
    assert (Hq : ((length bs + 1) / 512 = q)%nat).
    { symmetry. apply (Nat.div_unique _ _ _ (r + 1)%nat); lia. }
    rewrite Hq, skipn_app.
    replace (512 * q - length bs)%nat with 0%nat by lia. reflexivity.
Qed.

Lemma cons_store_set_trace t c m :
  cons_store c (set_trace t m) = set_trace t (cons_store c m).
Proof.
  unfold cons_store. cbn [cons_wpos set_cons_buf set_cons_wpos set_trace].
  destruct (_ =? CONSBUFSIZE); reflexivity.
Qed.

Lemma cons_feed_set_trace t c m :
  cons_feed (set_trace t m) c = set_trace t (cons_feed m c).
Proof.
  unfold cons_feed. destruct (c =? 0); [reflexivity|].
  apply cons_store_set_trace.
Qed.

Lemma fold_cons_feed_set_trace t l :
  forall m, fold_left cons_feed l (set_trace t m) = set_trace t (fold_left cons_feed l m).
Proof.
  induction l as [|c l IH]; intros m; [reflexivity|].
  cbn [fold_left]. rewrite cons_feed_set_trace. apply IH.
Qed.

Lemma fold_cons_feed_ring_wf l :
  forall m, ring_wf m -> ring_wf (fold_left cons_feed l m).
Proof.
  induction l as [|c l IH]; intros m H; [assumption|].
  cbn [fold_left]. apply IH, cons_feed_ring_wf, H.
Qed.

(** Feeding nonzero bytes is pushing them on the queue. *)
Lemma fold_cons_feed_contents l :
  Forall (fun b => 0 < b < 256) l ->
  forall m, ring_wf m ->
    ring_contents (fold_left cons_feed l m) = fold_left ring_push l (ring_contents m).
Proof.
  induction 1 as [|c l Hc Hl IH]; intros m Hm; [reflexivity|].
  cbn [fold_left]. rewrite IH by (apply cons_feed_ring_wf; assumption).
  f_equal. unfold cons_feed.
  destruct (c =? 0) eqn:E; [apply Z.eqb_eq in E; lia|].
  rewrite ring_contents_store by assumption. rewrite u8_small by lia. reflexivity.
Qed.

Lemma fold_cons_feed_frame l :
  forall m, let m' := fold_left cons_feed l m in
    trace m' = trace m /\ serial_exists m' = serial_exists m /\
    shift m' = shift m /\ cons_rpos m' = cons_rpos m.
Proof.
  induction l as [|c l IH]; intros m; [cbn; auto|].
  cbn [fold_left]. destruct (IH (cons_feed m c)) as (H1 & H2 & H3 & H4).
  cbn zeta. rewrite H1, H2, H3, H4. unfold cons_feed.
  destruct (c =? 0); [auto|]. unfold cons_store.
  cbn [cons_wpos set_cons_buf set_cons_wpos].
  destruct (_ =? CONSBUFSIZE); cbn; auto.
Qed.

Lemma drained_all l : drained (length l) l = l.
Proof. induction l as [|x l IH]; [reflexivity|]. cbn. rewrite IH. reflexivity. Qed.

Lemma drained_nil n : drained n [] = repeat (-1) n.
Proof. induction n as [|n IH]; [reflexivity|]. cbn. rewrite IH. reflexivity. Qed.

(** ** Draining the devices *)

Section Drain.

Context {hdr : console_h} (hw : hardware).

Lemma serial_delivers_dry base bs t :
  serial_delivers hw base bs ->
  Z.of_nat (length bs) <= count_in (COM1 + COM_RX) t - base ->
  serial_dry hw t.
Proof.
  intros Hd Hk t'. specialize (Hd (t' ++ t)). cbv zeta in Hd.
  rewrite count_in_app in Hd. pose proof (count_in_nonneg (COM1 + COM_RX) t').
  destruct (_ <? _) eqn:E; [apply Z.ltb_lt in E; lia|].
  apply Hd. lia.
Qed.

Lemma serial_dry_more t' t : serial_dry hw t -> serial_dry hw (t' ++ t).
Proof. intros H t''. rewrite app_assoc. apply H. Qed.

(** A UART without data ends the drain at once. *)
Lemma serial_proc_data_dry m :
  serial_dry hw (trace m) ->
  exists v, serial_proc_data hw m = (-1, set_trace (In_b (COM1 + COM_LSR) v :: trace m) m).
Proof.
  intros H. unfold serial_proc_data, bind. rewrite inb_run.
  specialize (H []). cbn [app] in H. rewrite H. cbn [Z.eqb].
  eexists. reflexivity.
Qed.

Lemma serial_intr_quiet fuel m :
  serial_exists m = false \/ serial_dry hw (trace m) ->
  (0 < fuel)%nat ->
  exists t', serial_intr hw fuel m = Some (set_trace (t' ++ trace m) m) /\
             outs t' = [].
Proof.
  intros H Hf. unfold serial_intr.
  destruct (serial_exists m) eqn:E.
  - destruct H as [H|H]; [discriminate|].
    destruct fuel as [|fuel]; [lia|]. cbn [cons_intr].
    destruct (serial_proc_data_dry m H) as [v Hv]. rewrite Hv. cbn [Z.eqb].
    exists [In_b (COM1 + COM_LSR) v]. split; reflexivity.
  - exists []. cbn [app]. rewrite set_trace_id. split; reflexivity.
Qed.

Lemma kbd_intr_quiet fuel m :
  kbd_silent hw -> (0 < fuel)%nat ->
  exists t', kbd_intr hw fuel m = Some (set_trace (t' ++ trace m) m) /\
             outs t' = [].
Proof.
  intros H Hf. destruct fuel as [|fuel]; [lia|].
  unfold kbd_intr. cbn [cons_intr]. unfold kbd_proc_data, bind.
  rewrite inb_run. rewrite (H (trace m)). cbn [Z.eqb]. unfold ret. cbn [Z.eqb].
  eexists [_]. split; reflexivity.
Qed.

(** [cons_getc] with both devices idle: the oldest unread byte, or [-1]
    from an empty ring. *)
Lemma cons_getc_quiet fuel m :
  kbd_silent hw ->
  serial_exists m = false \/ serial_dry hw (trace m) ->
  ring_wf m -> (0 < fuel)%nat ->
  exists t' r',
    let m' := set_cons_rpos r' (set_trace (t' ++ trace m) m) in
    cons_getc hw fuel m = Some (hd (-1) (ring_contents m), m') /\
    ring_wf m' /\ ring_contents m' = tl (ring_contents m) /\ outs t' = [].
Proof.
  intros Hk Hs Hwf Hf. unfold cons_getc.
  destruct (serial_intr_quiet fuel m Hs Hf) as (t1 & E1 & O1). rewrite E1.
  destruct (kbd_intr_quiet fuel (set_trace (t1 ++ trace m) m) Hk Hf) as (t2 & E2 & O2).
  rewrite E2.
  change (set_trace (t2 ++ trace (set_trace (t1 ++ trace m) m))
            (set_trace (t1 ++ trace m) m))
    with (set_trace (t2 ++ t1 ++ trace m) m).
  rewrite app_assoc.
  set (m2 := set_trace ((t2 ++ t1) ++ trace m) m).
  assert (Hwf2 : ring_wf m2) by exact Hwf.
  assert (Hc2 : ring_contents m2 = ring_contents m) by reflexivity.
  exists (t2 ++ t1).
  destruct (cons_rpos m2 =? cons_wpos m2) eqn:E; cbn [negb].
  - apply Z.eqb_eq in E. exists (cons_rpos m2).
    apply (ring_contents_nil m2 Hwf2) in E. rewrite Hc2 in E. rewrite E.
    cbn [hd tl]. cbv zeta. fold m2.
    replace (set_cons_rpos (cons_rpos m2) m2) with m2 by (destruct m; reflexivity).
    repeat split; try apply Hwf.
    + rewrite Hc2. exact E.
    + rewrite outs_app, O1, O2. reflexivity.
  - apply Z.eqb_neq in E. exists ((cons_rpos m2 + 1) mod CONSBUFSIZE).
    destruct (ring_contents_pop m2 Hwf2 E) as (Hwf3 & Hc3).
    rewrite <- Hc2, Hc3. cbn [hd tl]. cbv zeta. fold m2.
    assert (Hr : set_cons_rpos (u32 (cons_rpos m2 + 1)) m2 =
                 set_cons_rpos (cons_rpos m2 + 1) m2).
    { destruct Hwf2 as (_ & Hr & _). unfold CONSBUFSIZE in Hr.
      rewrite u32_small by lia. reflexivity. }
    rewrite Hr. cbn [cons_rpos set_cons_rpos].
    assert (Hm : (if cons_rpos m2 + 1 =? CONSBUFSIZE
                  then set_cons_rpos 0 (set_cons_rpos (cons_rpos m2 + 1) m2)
                  else set_cons_rpos (cons_rpos m2 + 1) m2) =
                 set_cons_rpos ((cons_rpos m2 + 1) mod CONSBUFSIZE) m2).
    { destruct Hwf2 as (_ & Hr' & _). unfold CONSBUFSIZE in *.
      destruct (cons_rpos m2 + 1 =? 512) eqn:E'.
      - apply Z.eqb_eq in E'. rewrite E'. reflexivity.
      - apply Z.eqb_neq in E'. rewrite Z.mod_small by lia. reflexivity. }
    rewrite Hm. repeat split; try apply Hwf3.
    rewrite outs_app, O1, O2. reflexivity.
Qed.

(** A consumer popping [n] times while the devices are idle. *)
Lemma pops_quiet fuel n :
  kbd_silent hw -> (0 < fuel)%nat ->
  forall m,
    serial_exists m = false \/ serial_dry hw (trace m) ->
    ring_wf m ->
    exists m', pops hw fuel n m = Some (drained n (ring_contents m), m') /\
               ring_wf m' /\
               ring_contents m' = skipn n (ring_contents m) /\
               outs (trace m') = outs (trace m).
Proof.
  intros Hk Hf. induction n as [|n IH]; intros m Hs Hwf.
  - exists m. repeat split; try apply Hwf.
  - cbn [pops drained].
    destruct (cons_getc_quiet fuel m Hk Hs Hwf Hf) as (t' & r' & E & Hwf' & Hc & Ho).
    cbv zeta in *. rewrite E.
    destruct (IH (set_cons_rpos r' (set_trace (t' ++ trace m) m))) as (m' & E' & W' & C' & O').
    + destruct Hs as [Hs|Hs]; [left; exact Hs|right].
      cbn [trace set_cons_rpos set_trace]. apply serial_dry_more, Hs.
    + exact Hwf'.
    + exists m'. rewrite E', Hc. repeat split; try apply W'.
      * rewrite C', Hc. destruct (ring_contents m); [destruct n|]; reflexivity.
      * rewrite O'. cbn [trace set_cons_rpos set_trace].
        rewrite outs_app, Ho. reflexivity.
Qed.

Lemma skipn_cons_inv (k : nat) (bs : list Z) b rest :
  skipn k bs = b :: rest ->
  (k < length bs)%nat /\ nth k bs 0 = b /\ rest = skipn (S k) bs.
Proof.
  intros H. split; [|split].
  - destruct (Nat.lt_ge_cases k (length bs)) as [|Hge]; [assumption|].
    rewrite skipn_all2 in H by assumption. discriminate.
  - rewrite nth_lookup. replace k with (k + 0)%nat by lia.
    rewrite <- lookup_drop, H. reflexivity.
  - replace (S k) with (k + 1)%nat by lia.
    rewrite <- drop_drop, H. reflexivity.
Qed.

(** Draining a UART that holds bytes: every byte it still holds goes
    through one round of the loop, in order, and the loop ends. *)
Lemma serial_drain base bs :
  serial_delivers hw base bs ->
  forall rest m fuel,
    0 <= count_in (COM1 + COM_RX) (trace m) - base ->
    rest = skipn (Z.to_nat (count_in (COM1 + COM_RX) (trace m) - base)) bs ->
    (length rest < fuel)%nat ->
    exists t',
      cons_intr fuel (serial_proc_data hw) m =
        Some (set_trace (t' ++ trace m) (fold_left cons_feed rest m)) /\
      Z.of_nat (length bs) <= count_in (COM1 + COM_RX) (t' ++ trace m) - base /\
      outs t' = [].
Proof.
  intros Hd. induction rest as [|b rest IH]; intros m fuel Hk Hrest Hf.
  - destruct fuel as [|fuel]; [cbn in Hf; lia|]. cbn [cons_intr fold_left].
    assert (Hlen : Z.of_nat (length bs) <= count_in (COM1 + COM_RX) (trace m) - base).
    { apply (f_equal (@length Z)) in Hrest. rewrite length_skipn in Hrest.
      cbn [length] in Hrest. lia. }
    destruct (serial_proc_data_dry m (serial_delivers_dry _ _ _ Hd Hlen)) as [v Hv].
    rewrite Hv. cbn [Z.eqb]. exists [In_b (COM1 + COM_LSR) v].
    split; [reflexivity|]. split; [|reflexivity].
    cbn [app count_in]. change (COM1 + COM_LSR =? COM1 + COM_RX) with false. lia.
  - destruct fuel as [|fuel]; [cbn in Hf; lia|]. cbn [cons_intr].
    symmetry in Hrest. apply skipn_cons_inv in Hrest.
    destruct Hrest as (Hlt & Hnth & Hrest).
    pose proof (Hd (trace m)) as H1. cbv zeta in H1. specialize (H1 Hk).
    destruct (_ <? _) eqn:E in H1; [|apply Z.ltb_ge in E; lia].
    destruct H1 as (Hdata & _).
    unfold serial_proc_data at 1, bind. rewrite inb_run.
    destruct (Z.land _ COM_LSR_DATA =? 0) eqn:E0; [apply Z.eqb_eq in E0; contradiction|].
    rewrite inb_run. cbn [trace set_trace].
    set (v := u8 (port_in hw (trace m) (COM1 + COM_LSR))) in *.
    pose proof (Hd (In_b (COM1 + COM_LSR) v :: trace m)) as H2. cbv zeta in H2.
    cbn [count_in] in H2. change (COM1 + COM_LSR =? COM1 + COM_RX) with false in H2.
    rewrite Z.add_0_l in H2. specialize (H2 Hk). rewrite E in H2.
    destruct H2 as (_ & Hrx). rewrite Hrx, Hnth.
    assert (Hb : 0 <= b < 256) by (rewrite <- Hnth, <- Hrx; apply u8_range).
    destruct (b =? -1) eqn:Eb; [apply Z.eqb_eq in Eb; lia|].
    set (t1 := In_b (COM1 + COM_RX) b :: In_b (COM1 + COM_LSR) v :: trace m).
    assert (Hstep : (if b =? 0
                     then cons_intr fuel (serial_proc_data hw) (set_trace t1 m)
                     else cons_intr fuel (serial_proc_data hw)
                            (cons_store b (set_trace t1 m))) =
                    cons_intr fuel (serial_proc_data hw)
                      (set_trace t1 (cons_feed m b))).
    { rewrite <- cons_feed_set_trace. unfold cons_feed.
      destruct (b =? 0); reflexivity. }
    change (set_trace t1 (set_trace (In_b (COM1 + COM_LSR) v :: trace m) m))
      with (set_trace t1 m).
    rewrite Hstep.
    assert (Hc : count_in (COM1 + COM_RX) t1 - base =
                 count_in (COM1 + COM_RX) (trace m) - base + 1).
    { subst t1. cbn [count_in]. rewrite Z.eqb_refl.
      change (COM1 + COM_LSR =? COM1 + COM_RX) with false. cbv iota. lia. }
    destruct (IH (set_trace t1 (cons_feed m b)) fuel) as (t' & Hrun & Hcnt & Ho).
    + cbn [trace set_trace]. lia.
    + cbn [trace set_trace]. rewrite Hc, Hrest. f_equal. lia.
    + cbn [length] in Hf. lia.
    + exists (t' ++ [In_b (COM1 + COM_RX) b; In_b (COM1 + COM_LSR) v]).
      rewrite Hrun. cbn [trace set_trace fold_left].
      rewrite fold_cons_feed_set_trace. cbn [set_trace].
      rewrite <- app_assoc. cbn [app]. fold t1.
      split; [reflexivity|]. split; [exact Hcnt|].
      rewrite outs_app, Ho. reflexivity.
Qed.

End Drain.

(** ** First in, first out, and what is lost *)

Section Fifo.

Context {hdr : console_h} (hw : hardware).

(** One drain of a UART holding the nonzero bytes [bs] into an empty
    ring, then [n] pops: the consumer sees the bytes pushed since the
    last multiple of 512, then [-1]. *)
Lemma push_pop_run bs m fuel n :
  kbd_silent hw ->
  serial_delivers hw (count_in (COM1 + COM_RX) (trace m)) bs ->
  serial_exists m = true ->
  ring_wf m ->
  cons_rpos m = cons_wpos m ->
  Forall (fun b => 0 < b < 256) bs ->
  (length bs < fuel)%nat ->
  push_pop hw fuel n m = Some (drained n (skipn (512 * (length bs / 512)) bs)).
Proof.
  intros Hk Hd Hs Hwf He Hb Hf. unfold push_pop, serial_intr. rewrite Hs.
  destruct (serial_drain hw _ bs Hd bs m fuel) as (t' & Hrun & Hcnt & Ho).
  - lia.
  - rewrite Z.sub_diag. reflexivity.
  - exact Hf.
  - rewrite Hrun.
    set (m1 := set_trace (t' ++ trace m) (fold_left cons_feed bs m)).
    assert (Hwf1 : ring_wf m1) by (apply (fold_cons_feed_ring_wf bs m Hwf)).
    assert (Hc1 : ring_contents m1 = skipn (512 * (length bs / 512)) bs).
    { change (ring_contents m1) with (ring_contents (fold_left cons_feed bs m)).
      rewrite fold_cons_feed_contents by assumption.
      apply (ring_contents_nil m Hwf) in He. rewrite He. apply fold_ring_push. }
    destruct (pops_quiet hw fuel n Hk ltac:(lia) m1) as (m2 & Hp & _).
    + right.
      apply (serial_delivers_dry hw (count_in (COM1 + COM_RX) (trace m)) bs);
        assumption.
    + exact Hwf1.
    + rewrite Hp, Hc1. reflexivity.
Qed.

Lemma drained_one_more l : drained (length l + 1) l = l ++ [-1].
Proof. induction l as [|x l IH]; [reflexivity|]. cbn. rewrite IH. reflexivity. Qed.

(** C5, amended.  For every sequence of at most 511 nonzero bytes that
    one drain of the UART pushes through [cons_intr] into an empty ring
    buffer, a consumer that then calls [cons_getc] gets exactly those
    bytes in push order, and [-1] from the call after the last one. *)
Theorem fifo_below_capacity bs m fuel :
  kbd_silent hw ->
  serial_delivers hw (count_in (COM1 + COM_RX) (trace m)) bs ->
  serial_exists m = true ->
  ring_wf m ->
  cons_rpos m = cons_wpos m ->
  Forall (fun b => 0 < b < 256) bs ->
  (length bs <= 511)%nat ->
  (length bs < fuel)%nat ->
  push_pop hw fuel (length bs + 1) m = Some (bs ++ [-1]).
Proof.
  intros Hk Hd Hs Hwf He Hb Hlen Hf.
  rewrite (push_pop_run bs) by assumption.
  rewrite Nat.div_small by lia. rewrite Nat.mul_0_r. cbn [skipn].
  rewrite drained_one_more. reflexivity.
Qed.

(** C1, amended.  Pushing 513 nonzero bytes into an empty ring buffer
    with no pop in between takes [wpos] once around the ring and one
    step past [rpos]: of 512 calls of [cons_getc] that follow, the first
    returns the 513th byte pushed and the other 511 return [-1]. *)
Theorem overflow_keeps_last_byte bs m fuel :
  kbd_silent hw ->
  serial_delivers hw (count_in (COM1 + COM_RX) (trace m)) bs ->
  serial_exists m = true ->
  ring_wf m ->
  cons_rpos m = cons_wpos m ->
  Forall (fun b => 0 < b < 256) bs ->
  length bs = 513%nat ->
  (513 < fuel)%nat ->
  push_pop hw fuel 512 m = Some (nth 512 bs 0 :: repeat (-1) 511).
Proof.
  intros Hk Hd Hs Hwf He Hb Hlen Hf.
  rewrite (push_pop_run bs) by (assumption || lia).
  rewrite Hlen. change (512 * (513 / 512))%nat with 512%nat.
  assert (Hl : skipn 512 bs = [nth 512 bs 0]).
  { destruct (skipn 512 bs) as [|b rest] eqn:E.
    - apply (f_equal (@length Z)) in E. rewrite length_skipn, Hlen in E.
      discriminate.
    - destruct (skipn_cons_inv _ _ _ _ E) as (_ & Hn & Hr).
      rewrite Hn, Hr. rewrite skipn_all2 by lia. reflexivity. }
  rewrite Hl.
  change (drained 512 [nth 512 bs 0]) with (nth 512 bs 0 :: drained 511 []).
  rewrite drained_nil. reflexivity.
Qed.

End Fifo.

(** The scripted PC satisfies the device behaviours assumed above. *)
Lemma pc_hw_kbd_silent bs : @kbd_silent pc_console_h (pc_hw bs []).
Proof.
  intros h. cbn [port_in pc_hw KBSTATP KBS_DIB pc_console_h].
  change (100 =? 1021) with false. change (100 =? 1016) with false.
  change (100 =? 100) with true. cbv iota. cbn [length Z.of_nat].
  pose proof (count_in_nonneg 96 h).
  destruct (_ <? _) eqn:E; [apply Z.ltb_lt in E; lia|]. reflexivity.
Qed.

Lemma pc_hw_serial_delivers bs kb :
  Forall (fun b => 0 < b < 256) bs -> serial_delivers (pc_hw bs kb) 0 bs.
Proof.
  intros Hb h k Hk. subst k. rewrite Z.sub_0_r in *.
  cbn [port_in pc_hw].
  change (COM1 + COM_LSR =? 1021) with true.
  change (COM1 + COM_RX =? 1021) with false.
  change (COM1 + COM_RX =? 1016) with true. cbv iota.
  change (COM1 + COM_RX) with 1016 in *.
  destruct (count_in 1016 h <? Z.of_nat (length bs)) eqn:E.
  - split; [discriminate|]. apply Z.ltb_lt in E.
    apply u8_small.
    assert (Hin : In (nth (Z.to_nat (count_in 1016 h)) bs 0) bs)
      by (apply nth_In; lia).
    rewrite Forall_forall in Hb. apply list_elem_of_In, Hb in Hin. lia.
  - reflexivity.
Qed.

Lemma sample_bytes_nonzero n : Forall (fun b => 0 < b < 256) (sample_bytes n).
Proof.
  apply Forall_forall. intros b Hb. apply list_elem_of_In, in_map_iff in Hb.
  destruct Hb as (i & <- & _).
  pose proof (Z.mod_pos_bound (Z.of_nat i) 255 ltac:(lia)). lia.
Qed.

Lemma booted_with_serial_wf : ring_wf booted_with_serial.
Proof. repeat split; try reflexivity; discriminate. Qed.

Lemma fifo_below_capacity_witness :
  @push_pop pc_console_h (pc_hw (sample_bytes 511) []) 512 (511 + 1)
     booted_with_serial
  = Some (sample_bytes 511 ++ [-1]).
Proof.
  apply (@fifo_below_capacity pc_console_h (pc_hw (sample_bytes 511) [])
           (sample_bytes 511) booted_with_serial 512).
  - apply pc_hw_kbd_silent.
  - apply pc_hw_serial_delivers, sample_bytes_nonzero.
  - reflexivity.
  - apply booted_with_serial_wf.
  - reflexivity.
  - apply sample_bytes_nonzero.
  - vm_compute. lia.
  - vm_compute. lia.
Defined.

(** C5 fails as stated: 512 nonzero bytes pushed into the empty ring
    bring [wpos] back onto [rpos], so every pop that follows returns
    [-1] and none of the bytes is retrieved; and a zero byte delivered
    by the UART is dropped by [cons_intr], so a shorter sequence with a
    zero in it is not retrieved as pushed either. *)
Lemma fifo_512_counterexample :
  (@push_pop pc_console_h (pc_hw (sample_bytes 512) []) 513 512 booted_with_serial
     = Some (repeat (-1) 512) /\
   @push_pop pc_console_h (pc_hw (sample_bytes 512) []) 513 512 booted_with_serial
     <> Some (sample_bytes 512)) /\
  (@push_pop pc_console_h (pc_hw [0x41; 0; 0x42] []) 4 3 booted_with_serial
     = Some [0x41; 0x42; -1] /\
   @push_pop pc_console_h (pc_hw [0x41; 0; 0x42] []) 4 3 booted_with_serial
     <> Some [0x41; 0; 0x42]).
Proof.
  assert (E : @push_pop pc_console_h (pc_hw (sample_bytes 512) []) 513 512
                booted_with_serial = Some (repeat (-1) 512))
    by (vm_compute; reflexivity).
  split; [split; [exact E|]|].
  - rewrite E. intros H. apply (f_equal (fun o => hd 0 <$> o)) in H.
    vm_compute in H. discriminate.
  - split; [vm_compute; reflexivity | vm_compute; discriminate].
Qed.

Lemma overflow_keeps_last_byte_witness :
  @push_pop pc_console_h (pc_hw (sample_bytes 513) []) 514 512 booted_with_serial
  = Some (nth 512 (sample_bytes 513) 0 :: repeat (-1) 511).
Proof.
  apply (@overflow_keeps_last_byte pc_console_h (pc_hw (sample_bytes 513) [])
           (sample_bytes 513) booted_with_serial 514).
  - apply pc_hw_kbd_silent.
  - apply pc_hw_serial_delivers, sample_bytes_nonzero.
  - reflexivity.
  - apply booted_with_serial_wf.
  - reflexivity.
  - apply sample_bytes_nonzero.
  - vm_compute. reflexivity.
  - vm_compute. lia.
Defined.

(** C1 fails as stated: after 513 pushes the 512 pops do not return the
    bytes 2 through 513 of the input; they return the 513th byte and
    then [-1] 511 times. *)
Lemma overflow_513_counterexample :
  @push_pop pc_console_h (pc_hw (sample_bytes 513) []) 514 512 booted_with_serial
    = Some (3 :: repeat (-1) 511) /\
  @push_pop pc_console_h (pc_hw (sample_bytes 513) []) 514 512 booted_with_serial
    <> Some (skipn 1 (sample_bytes 513)).
Proof.
  assert (E : @push_pop pc_console_h (pc_hw (sample_bytes 513) []) 514 512
                booted_with_serial = Some (3 :: repeat (-1) 511))
    by (vm_compute; reflexivity).
  split; [exact E|]. rewrite E. intros H. apply (f_equal (fun o => hd 0 <$> o)) in H.
  vm_compute in H. discriminate.
Qed.

(** ** [getchar] on an empty ring *)

(** C2, as the code has it: with nothing unread in the ring and no
    device holding input, the first call of [cons_getc] returns [-1],
    which is not [0], so [getchar] leaves its loop and returns [-1]. *)
Theorem getchar_returns_minus_one {hdr : console_h} (hw : hardware) m fuel :
  kbd_silent hw ->
  serial_exists m = false \/ serial_dry hw (trace m) ->
  ring_wf m ->
  cons_rpos m = cons_wpos m ->
  (1 < fuel)%nat ->
  exists m', getchar hw fuel m = Some (-1, m').
Proof.
  intros Hk Hs Hwf He Hf. destruct fuel as [|fuel]; [lia|]. cbn [getchar].
  destruct (cons_getc_quiet hw fuel m Hk Hs Hwf ltac:(lia)) as (t' & r' & E & _).
  cbv zeta in E. rewrite E.
  apply (ring_contents_nil m Hwf) in He. rewrite He. cbn [hd Z.eqb].
  eexists. reflexivity.
Qed.

Lemma boot_wf d : ring_wf (boot d).
Proof. repeat split; try reflexivity; discriminate. Qed.

Lemma getchar_returns_minus_one_witness :
  exists m', @getchar pc_console_h (pc_hw [] []) 2 (boot (fun _ => 0)) = Some (-1, m').
Proof.
  apply (@getchar_returns_minus_one pc_console_h (pc_hw [] []) (boot (fun _ => 0)) 2).
  - apply pc_hw_kbd_silent.
  - left. reflexivity.
  - apply boot_wf.
  - reflexivity.
  - lia.
Defined.

(** ** Bits of the modifier state *)

Lemma land_pow2 s k :
  0 <= k -> Z.land s (2 ^ k) = if Z.testbit s k then 2 ^ k else 0.
Proof.
  intros Hk. apply Z.bits_inj'. intros n Hn.
  rewrite Z.land_spec, Z.pow2_bits_eqb by assumption.
  destruct (Z.eqb_spec k n) as [->|Hne].
  - destruct (Z.testbit s n); cbn [andb].
    + rewrite Z.pow2_bits_eqb, Z.eqb_refl by assumption. reflexivity.
    + rewrite Z.bits_0. reflexivity.
  - rewrite andb_false_r. destruct (Z.testbit s k).
    + rewrite Z.pow2_bits_eqb by assumption.
      symmetry. apply Z.eqb_neq. assumption.
    + rewrite Z.bits_0. reflexivity.
Qed.

(** The C test [x & MASK] for a one-bit mask. *)
Lemma test_mask s k :
  0 <= k -> (Z.land s (2 ^ k) =? 0) = negb (Z.testbit s k).
Proof.
  intros Hk. rewrite land_pow2 by assumption.
  destruct (Z.testbit s k); [|reflexivity].
  apply Z.eqb_neq. pose proof (Z.pow_pos_nonneg 2 k). lia.
Qed.

Lemma testbit_u32 x k :
  0 <= k -> Z.testbit (u32 x) k = (k <? 32) && Z.testbit x k.
Proof.
  intros Hk. unfold u32. change 4294967296 with (2 ^ 32).
  destruct (Z.ltb_spec k 32).
  - rewrite Z.mod_pow2_bits_low by lia. reflexivity.
  - rewrite Z.mod_pow2_bits_high by lia. reflexivity.
Qed.

(** The test [!(~shift & (CTL | ALT))]. *)
Lemma test_ctl_alt s :
  (Z.land (u32 (Z.lnot s)) (Z.lor CTL ALT) =? 0) = Z.testbit s 1 && Z.testbit s 2.
Proof.
  change (Z.lor CTL ALT) with (Z.lor (2 ^ 1) (2 ^ 2)).
  rewrite Z.land_lor_distr_r, !land_pow2 by lia.
  rewrite !testbit_u32, !Z.lnot_spec by lia. cbn [Z.ltb Z.compare andb].
  destruct (Z.testbit s 1), (Z.testbit s 2); reflexivity.
Qed.

Lemma small_no_bit7 data : 0 <= data < 0x80 -> Z.testbit data 7 = false.
Proof.
  intros H. apply Z.testbit_false; [lia|].
  change (2 ^ 7) with 128. rewrite Z.div_small by lia. reflexivity.
Qed.

(** The table selected by [shift & (CTL | SHIFT)] once Ctrl is down. *)
Lemma charcode_ctl {hdr : console_h} s :
  Z.testbit s 1 = true ->
  nth (Z.to_nat (Z.land s (Z.lor CTL SHIFT))) charcode [] = ctlmap.
Proof.
  intros H. change (Z.lor CTL SHIFT) with (Z.ones 2).
  rewrite Z.land_ones by lia. change (2 ^ 2) with 4.
  apply Z.testbit_true in H; [|lia]. change (2 ^ 1) with 2 in H.
  pose proof (Z.mod_pos_bound s 4 ltac:(lia)) as Hr.
  assert (Hs : s mod 4 = 2 \/ s mod 4 = 3).
  { pose proof (Z.div_mod s 4 ltac:(lia)) as H4.
    pose proof (Z.div_mod (s mod 4) 2 ltac:(lia)) as H2.
    pose proof (Z.mod_pos_bound (s mod 4) 2 ltac:(lia)) as Hr2.
    assert (Hd : (s / 2) mod 2 = (s mod 4) / 2).
    { replace s with (s mod 4 + (s / 4) * 2 * 2) at 1 by lia.
      rewrite Z.div_add by lia. rewrite Z.add_mod by lia.
      rewrite Z.mod_mul by lia. rewrite Z.add_0_r, Z.mod_mod by lia.
      apply Z.mod_small.
      assert (0 <= s mod 4 / 2) by (apply Z.div_pos; lia).
      assert (s mod 4 / 2 < 2) by (apply Z.div_lt_upper_bound; lia). lia. }
    rewrite Hd in H. lia. }
  destruct Hs as [-> | ->]; reflexivity.
Qed.

(** ** The scancode tables *)

Lemma idx_In (t : list Z) d : In (idx t d) (0 :: t).
Proof.
  unfold idx. destruct (nth_in_or_default (Z.to_nat d) t 0) as [H|H].
  - right. exact H.
  - left. symmetry. exact H.
Qed.

Lemma shiftcode_values d :
  idx shiftcode d = 0 \/ idx shiftcode d = 1 \/ idx shiftcode d = 2 \/ idx shiftcode d = 4.
Proof.
  assert (H : forallb (fun x => (x =? 0) || (x =? 1) || (x =? 2) || (x =? 4))
                (0 :: shiftcode) = true) by (vm_compute; reflexivity).
  rewrite forallb_forall in H. specialize (H _ (idx_In shiftcode d)).
  repeat (apply orb_prop in H; destruct H as [H|H]); apply Z.eqb_eq in H; auto.
Qed.

Lemma togglecode_values d :
  idx togglecode d = 0 \/ idx togglecode d = 8 \/ idx togglecode d = 16 \/
  idx togglecode d = 32.
Proof.
  assert (H : forallb (fun x => (x =? 0) || (x =? 8) || (x =? 16) || (x =? 32))
                (0 :: togglecode) = true) by (vm_compute; reflexivity).
  rewrite forallb_forall in H. specialize (H _ (idx_In togglecode d)).
  repeat (apply orb_prop in H; destruct H as [H|H]); apply Z.eqb_eq in H; auto.
Qed.

Lemma idx_c_array_range n p d i : 0 <= idx (c_array n p d) i < 256.
Proof.
  unfold idx, c_array.
  destruct (nth_in_or_default (Z.to_nat i)
              (map u8 (fold_left (fun a iv => <[Z.to_nat (fst iv) := snd iv]> a) d
                         (take n (p ++ repeat 0 n)))) 0) as [H|H].
  - apply in_map_iff in H. destruct H as (x & <- & _). apply u8_range.
  - rewrite H. lia.
Qed.

Lemma charcode_range {hdr : console_h} j d :
  0 <= idx (nth j charcode []) d < 256.
Proof.
  destruct j as [|[|[|[|j]]]]; cbn [nth charcode];
    try apply idx_c_array_range.
  unfold idx. destruct j, (Z.to_nat d); cbn; lia.
Qed.

Lemma swap_case_range c : 0 <= c < 256 -> 0 <= swap_case c < 256.
Proof.
  intros H. unfold swap_case.
  change (chr "a") with 97. change (chr "z") with 122.
  change (chr "A") with 65. change (chr "Z") with 90.
  destruct (97 <=? c) eqn:E1, (c <=? 122) eqn:E2,
           (65 <=? c) eqn:E3, (c <=? 90) eqn:E4; cbn [andb]; lia.
Qed.

Lemma swap_case_special c : special_key c -> swap_case c = c.
Proof.
  unfold special_key, swap_case. intros H.
  change (chr "a") with 97. change (chr "z") with 122.
  change (chr "A") with 65. change (chr "Z") with 90.
  destruct (97 <=? c) eqn:E1, (c <=? 122) eqn:E2,
           (65 <=? c) eqn:E3, (c <=? 90) eqn:E4; cbn [andb]; lia.
Qed.

(** ** The decoder *)

Section Decoder.

Context {hdr : console_h}.

(** The prefix byte: no character, the prefix is pending. *)
Lemma kbd_decode_e0 m :
  kbd_decode 0xe0 m = (0, set_shift (Z.lor (shift m) E0ESC) m).
Proof. reflexivity. Qed.

(** A key release: no character, only the modifier state changes. *)
Lemma kbd_decode_release data m :
  0x80 <= data < 0x100 ->
  exists s', kbd_decode data m = (0, set_shift s' m).
Proof.
  intros H. unfold kbd_decode.
  destruct (data =? 224); [eexists; reflexivity|].
  change 128 with (2 ^ 7). rewrite test_mask by lia.
  assert (Hb : Z.testbit data 7 = true).
  { apply Z.testbit_true; [lia|]. change (2 ^ 7) with 128.
    assert (data / 128 = 1); [|replace (data / 128) with 1; reflexivity].
    symmetry. apply (Z.div_unique data 128 1 (data - 128)); lia. }
  rewrite Hb. cbn [negb]. eexists. reflexivity.
Qed.

(** A key press, spelled out: the slot, the modifier state, the table,
    CapsLock and the reset. *)
Lemma kbd_decode_press data m :
  0 <= data < 0x80 ->
  kbd_decode data m =
    let s := press_shift (shift m) data in
    let c0 := idx (nth (Z.to_nat (Z.land s (Z.lor CTL SHIFT))) charcode [])
                  (press_slot (shift m) data) in
    let c := if Z.testbit s 3 then swap_case c0 else c0 in
    (c, if Z.testbit s 1 && Z.testbit s 2 && (c =? KEY_DEL)
        then set_trace (Out_b 0x92 0x3 :: trace m) (set_shift s m)
        else set_shift s m).
Proof.
  intros H. unfold kbd_decode.
  destruct (data =? 224) eqn:E; [apply Z.eqb_eq in E; lia|]. clear E.
  change 128 with (2 ^ 7) at 1. rewrite test_mask, small_no_bit7 by lia.
  cbn [negb]. unfold bind at 1. unfold gets at 1.
  change E0ESC with (2 ^ 6) at 1. rewrite test_mask by lia.
  rewrite negb_involutive.
  unfold press_shift, press_slot. cbv zeta.
  destruct (Z.testbit (shift m) 6);
    unfold bind, modify, gets, ret, outb; cbn [shift set_shift trace set_trace];
    match goal with
    | |- context [Z.lxor ?a ?b] => set (s := Z.lxor a b)
    end;
    change CAPSLOCK with (2 ^ 3); rewrite test_mask by lia;
    rewrite negb_involutive, test_ctl_alt;
    fold (swap_case (idx (nth (Z.to_nat (Z.land s (Z.lor CTL SHIFT))) charcode [])
                         (u8 (Z.lor data 128))));
    fold (swap_case (idx (nth (Z.to_nat (Z.land s (Z.lor CTL SHIFT))) charcode [])
                         data));
    destruct (Z.testbit s 3), (Z.testbit s 1), (Z.testbit s 2); cbn [andb];
    try reflexivity;
    match goal with
    | |- context [?c =? KEY_DEL] => destruct (c =? KEY_DEL); reflexivity
    end.
Qed.

Lemma togglecode_bit d k :
  k = 0 \/ k = 1 \/ k = 2 \/ k = 6 -> Z.testbit (idx togglecode d) k = false.
Proof.
  intros Hk.
  destruct (togglecode_values d) as [E|[E|[E|E]]]; rewrite E;
    destruct Hk as [->|[->|[->| ->]]]; reflexivity.
Qed.


(** Below the prefix bit a key press only adds the key's modifiers and
    flips its toggles. *)
Lemma press_shift_low s data k :
  0 <= k < 6 ->
  Z.testbit (press_shift s data) k =
    xorb (Z.testbit s k || Z.testbit (idx shiftcode (press_slot s data)) k)
         (Z.testbit (idx togglecode (press_slot s data)) k).
Proof.
  intros Hk. unfold press_shift. cbv zeta.
  rewrite Z.lxor_spec, Z.lor_spec. f_equal. f_equal.
  destruct (Z.testbit s 6); [|reflexivity].
  rewrite Z.land_spec, testbit_u32, Z.lnot_spec by lia.
  change E0ESC with (2 ^ 6). rewrite Z.pow2_bits_eqb by lia.
  destruct (Z.ltb_spec k 32); [|lia].
  destruct (Z.eqb_spec 6 k); [lia|]. cbn [negb andb]. apply andb_true_r.
Qed.


Lemma press_shift_keeps_ctl s data :
  Z.testbit s 1 = true -> Z.testbit (press_shift s data) 1 = true.
Proof.
  intros H. rewrite press_shift_low, H, togglecode_bit by (lia || auto).
  reflexivity.
Qed.

Lemma press_shift_keeps_alt s data :
  Z.testbit s 2 = true -> Z.testbit (press_shift s data) 2 = true.
Proof.
  intros H. rewrite press_shift_low, H, togglecode_bit by (lia || auto).
  reflexivity.
Qed.

Lemma clear_shift_bit s k :
  0 <= k -> Z.testbit (Z.land s (Z.lnot SHIFT)) k = Z.testbit s k && negb (k =? 0).
Proof.
  intros Hk. rewrite Z.land_spec, Z.lnot_spec by assumption.
  change SHIFT with (2 ^ 0). rewrite Z.pow2_bits_eqb by lia.
  rewrite (Z.eqb_sym 0 k). reflexivity.
Qed.

(** C10.  Ctrl takes precedence over Shift: for every press scancode
    decoded while the Ctrl and Shift bits are both set the table
    selected is the ctrl table, which fills both [charcode[2]] and
    [charcode[3]]; the character is the entry of that table (with
    CapsLock applied), and the character returned and the port writes
    made are those of the same press decoded with Shift clear. *)
Theorem ctl_overrides_shift data m :
  0 <= data < 0x80 ->
  Z.testbit (shift m) 0 = true ->
  Z.testbit (shift m) 1 = true ->
  let s := press_shift (shift m) data in
  let c0 := idx ctlmap (press_slot (shift m) data) in
  let ctl_only := set_shift (Z.land (shift m) (Z.lnot SHIFT)) m in
  nth 3 charcode [] = ctlmap /\ nth 2 charcode [] = ctlmap /\
  nth (Z.to_nat (Z.land s (Z.lor CTL SHIFT))) charcode [] = ctlmap /\
  fst (kbd_decode data m) = (if Z.testbit s 3 then swap_case c0 else c0) /\
  Z.testbit (shift ctl_only) 0 = false /\
  Z.testbit (shift ctl_only) 1 = true /\
  fst (kbd_decode data m) = fst (kbd_decode data ctl_only) /\
  trace (snd (kbd_decode data m)) = trace (snd (kbd_decode data ctl_only)).
Proof.
  intros Hd H0 H1 s c0 ctl_only.
  assert (Hs1 : Z.testbit s 1 = true) by (apply press_shift_keeps_ctl; assumption).
  assert (Hb : forall k, 1 <= k ->
             Z.testbit (shift ctl_only) k = Z.testbit (shift m) k).
  { intros k Hk. subst ctl_only. cbn [shift set_shift].
    rewrite clear_shift_bit by lia.
    destruct (Z.eqb_spec k 0); [lia|]. apply andb_true_r. }
  assert (Hslot : press_slot (shift ctl_only) data = press_slot (shift m) data).
  { unfold press_slot. rewrite Hb by lia. reflexivity. }
  assert (Hlow : forall k, 1 <= k < 6 ->
             Z.testbit (press_shift (shift ctl_only) data) k = Z.testbit s k).
  { intros k Hk. subst s. rewrite !press_shift_low by lia.
    rewrite Hslot, Hb by lia. reflexivity. }
  split; [reflexivity|]. split; [reflexivity|].
  split; [apply charcode_ctl; exact Hs1|].
  rewrite !kbd_decode_press by assumption. cbv zeta. fold s.
  rewrite !charcode_ctl by (try exact Hs1; rewrite Hlow by lia; exact Hs1).
  rewrite Hslot, !Hlow by lia. fold c0.
  split; [reflexivity|].
  split; [subst ctl_only; cbn [shift set_shift]; rewrite clear_shift_bit by lia;
          apply andb_false_r|].
  split; [rewrite Hb by lia; exact H1|].
  split; [reflexivity|]. cbn [fst snd].
  destruct (_ && _ && _); reflexivity.
Qed.

Lemma lor_0x80 d : 0 <= d < 0x80 -> Z.lor d 0x80 = d + 0x80.
Proof.
  intros H. pose proof (Z.add_lor_land d 128) as E.
  change 128 with (2 ^ 7) in E at 2. rewrite land_pow2, small_no_bit7 in E by lia.
  lia.
Qed.

Lemma press_slot_esc s d :
  Z.testbit s 6 = true -> 0 <= d < 0x80 -> press_slot s d = d + 0x80.
Proof.
  intros Hs Hd. unfold press_slot. rewrite Hs, lor_0x80 by assumption.
  apply u8_small. lia.
Qed.

Lemma shift_after_press data m :
  0 <= data < 0x80 ->
  shift (snd (kbd_decode data m)) = press_shift (shift m) data.
Proof.
  intros H. rewrite kbd_decode_press by assumption. cbv zeta. cbn [snd].
  destruct (_ && _ && _); reflexivity.
Qed.




End Decoder.

Lemma ctl_overrides_shift_witness :
  let m := set_shift 3 (boot (fun _ => 0)) in
  @kbd_decode pc_console_h 0x1E m = (1, m) /\
  fst (@kbd_decode pc_console_h 0x1E m) =
  fst (@kbd_decode pc_console_h 0x1E (set_shift (Z.land 3 (Z.lnot SHIFT)) m)).
Proof.
  split; [reflexivity|].
  apply (@ctl_overrides_shift pc_console_h 0x1E (set_shift 3 (boot (fun _ => 0))));
    [lia | reflexivity | reflexivity].
Defined.


(** ** Ctrl-Alt-Del *)

Section Reset.

Context {hdr : console_h} (hw : hardware).

(** C3, amended.  With Ctrl and Alt set, a pending key press that the
    ctrl table resolves to the Delete key code makes [kbd_proc_data]
    write 0x3 to port 0x92 exactly once and return the key code; the
    round of [cons_intr] that called it then stores the key code at
    [buf[wpos]] and advances [wpos], as for any other character. *)
Theorem ctrl_alt_del_resets_and_delivers m fuel :
  special_key KEY_DEL ->
  ring_wf m ->
  Z.testbit (shift m) 1 = true ->
  Z.testbit (shift m) 2 = true ->
  let st := u8 (port_in hw (trace m) KBSTATP) in
  let data := u8 (port_in hw (In_b KBSTATP st :: trace m) KBDATAP) in
  Z.land st KBS_DIB <> 0 ->
  data < 0x80 ->
  idx ctlmap (press_slot (shift m) data) = KEY_DEL ->
  exists m1,
    kbd_proc_data hw m = (KEY_DEL, m1) /\
    outs (trace m1) = (0x92, 0x3) :: outs (trace m) /\
    kbd_intr hw (S fuel) m = kbd_intr hw fuel (cons_store KEY_DEL m1) /\
    idx (cons_buf (cons_store KEY_DEL m1)) (cons_wpos m) = KEY_DEL /\
    cons_wpos (cons_store KEY_DEL m1) = (cons_wpos m + 1) mod CONSBUFSIZE.
Proof.
  intros Hdel Hwf H1 H2 st data Hst Hdata Hslot.
  assert (Hd : 0 <= data < 0x80) by (pose proof (u8_range
    (port_in hw (In_b KBSTATP st :: trace m) KBDATAP)); fold data in H; lia).
  set (m0 := set_trace (In_b KBDATAP data :: In_b KBSTATP st :: trace m) m).
  set (s := press_shift (shift m) data).
  set (m1 := set_trace (Out_b 0x92 0x3 :: trace m0) (set_shift s m0)).
  assert (Hrun : kbd_proc_data hw m = (KEY_DEL, m1)).
  { unfold kbd_proc_data, bind. rewrite inb_run. fold st.
    destruct (Z.land st KBS_DIB =? 0) eqn:E; [apply Z.eqb_eq in E; contradiction|].
    rewrite inb_run. cbn [trace set_trace]. fold data.
    change (set_trace (In_b KBDATAP data :: In_b KBSTATP st :: trace m)
              (set_trace (In_b KBSTATP st :: trace m) m)) with m0.
    rewrite kbd_decode_press by assumption. cbv zeta.
    change (shift m0) with (shift m). fold s.
    rewrite charcode_ctl by (apply press_shift_keeps_ctl; assumption).
    rewrite Hslot, swap_case_special by assumption.
    unfold s at 2 3. rewrite press_shift_keeps_ctl, press_shift_keeps_alt by assumption.
    assert (Hc : (if Z.testbit s 3 then KEY_DEL else KEY_DEL) = KEY_DEL)
      by (destruct (Z.testbit s 3); reflexivity).
    rewrite Hc, Z.eqb_refl. reflexivity. }
  exists m1. split; [exact Hrun|]. split; [reflexivity|].
  assert (Hwf1 : ring_wf m1) by exact Hwf.
  unfold special_key in Hdel.
  split; [|split].
  - unfold kbd_intr. cbn [cons_intr]. rewrite Hrun.
    destruct (KEY_DEL =? -1) eqn:E1; [apply Z.eqb_eq in E1; lia|].
    destruct (KEY_DEL =? 0) eqn:E2; [apply Z.eqb_eq in E2; lia|]. reflexivity.
  - rewrite cons_store_wf by assumption.
    cbn [cons_buf set_cons_buf set_cons_wpos].
    change (cons_wpos m1) with (cons_wpos m). change (cons_buf m1) with (cons_buf m).
    rewrite idx_insert_eq.
    + apply u8_small. lia.
    + destruct Hwf as (HL & _ & Hw). unfold CONSBUFSIZE in *. lia.
  - rewrite cons_store_wf by assumption. reflexivity.
Qed.

End Reset.

Lemma ctrl_alt_del_resets_and_delivers_witness :
  let hw := pc_hw [] [0x53] in
  let m := set_shift 0x46 (boot (fun _ => 0)) in
  exists m1,
    @kbd_proc_data pc_console_h hw m = (0xE9, m1) /\
    outs (trace m1) = [(0x92, 0x3)] /\
    @kbd_intr pc_console_h hw 2 m = @kbd_intr pc_console_h hw 1 (cons_store 0xE9 m1) /\
    idx (cons_buf (cons_store 0xE9 m1)) 0 = 0xE9 /\
    cons_wpos (cons_store 0xE9 m1) = 1.
Proof.
  apply (@ctrl_alt_del_resets_and_delivers pc_console_h (pc_hw [] [0x53])
           (set_shift 0x46 (boot (fun _ => 0))) 1).
  - unfold special_key. cbn. lia.
  - apply boot_wf.
  - reflexivity.
  - reflexivity.
  - vm_compute. discriminate.
  - vm_compute. reflexivity.
  - vm_compute. reflexivity.
Defined.

(** C3 fails as stated: with Ctrl and Alt held, the keyboard delivering
    E0 53 (Delete) makes one drain write 0x3 to port 0x92 once and also
    leaves the Delete key code as an unread byte in the ring, which was
    empty before. *)
Lemma ctrl_alt_del_counterexample :
  let hw := pc_hw [] [0xE0; 0x53] in
  let m := set_shift (Z.lor CTL ALT) (boot (fun _ => 0)) in
  ring_contents m = [] /\
  option_map (fun m' => (outs (trace m'), ring_contents m', cons_wpos m'))
    (@kbd_intr pc_console_h hw 3 m) = Some ([(0x92, 0x3)], [0xE9], 1) /\
  option_map ring_contents (@kbd_intr pc_console_h hw 3 m)
    <> Some (ring_contents m).
Proof.
  split; [reflexivity|]. split; [vm_compute; reflexivity|].
  vm_compute. discriminate.
Qed.

(** ** Serial presence *)

Section Presence.

Context (hw : hardware).

(** C4, amended.  If the line-status register reads 0xff during
    [serial_init], [serial_exists] is latched false, and from then on
    [serial_intr] is a no-op that reads no port and pushes nothing.
    [serial_putc] does not consult the flag: it still returns after at
    most 12800 rounds of waiting - after none, if the status register
    still reads 0xff - and still writes the byte to the data port. *)
Theorem serial_absent_intr_noop_putc_writes m :
  nth_error (trace (snd (serial_init hw m))) 2 = Some (In_b (COM1 + COM_LSR) 0xff) ->
  let m1 := snd (serial_init hw m) in
  serial_exists m1 = false /\
  (forall fuel m2, serial_exists m2 = false -> serial_intr hw fuel m2 = Some m2) /\
  (forall c m2, exists i t,
      serial_putc hw c m2 = (tt, set_trace t m2) /\
      0 <= i <= 12800 /\
      count_in 0x84 t = count_in 0x84 (trace m2) + 4 * i /\
      outs t = (COM1 + COM_TX, u8 c) :: outs (trace m2)) /\
  (forall c m2,
      u8 (port_in hw (trace m2) (COM1 + COM_LSR)) = 0xff ->
      serial_putc hw c m2 =
        (tt, set_trace (Out_b (COM1 + COM_TX) (u8 c)
                          :: In_b (COM1 + COM_LSR) 0xff :: trace m2) m2)).
Proof.
  intros H m1. split; [|split; [|split]].
  - subst m1. revert H.
    unfold serial_init, bind, outb, inb, modify, ret.
    cbn [trace set_trace serial_exists set_serial_exists nth_error fst snd].
    intros H. injection H as H. rewrite H. reflexivity.
  - intros fuel m2 E. unfold serial_intr. rewrite E. reflexivity.
  - intros c m2.
    destruct (serial_putc_run hw c m2) as (i & t & E & Hi & H84 & _ & Ho).
    exists i, t. auto.
  - intros c m2 E. unfold serial_putc, bind.
    destruct (Z.to_nat 12800); cbn [spin_wait]; unfold bind;
      rewrite inb_run, E; reflexivity.
Qed.

End Presence.

Lemma serial_absent_intr_noop_putc_writes_witness :
  let m1 := snd (serial_init no_serial_hw (boot (fun _ => 0))) in
  serial_exists m1 = false /\
  serial_intr no_serial_hw 0 m1 = Some m1 /\
  outs (trace (snd (serial_putc no_serial_hw 0x41 m1))) =
    (0x3f8, 0x41) :: outs (trace m1).
Proof.
  destruct (serial_absent_intr_noop_putc_writes no_serial_hw (boot (fun _ => 0)))
    as (H1 & H2 & _ & H4); [reflexivity|].
  split; [exact H1|]. split; [apply H2; exact H1|].
  rewrite H4 by reflexivity. reflexivity.
Defined.

(** C4 fails as stated: on a machine whose line-status register read
    0xff during [serial_init], [serial_putc] still issues its port
    write, so the call is not without effect. *)
Lemma serial_absent_counterexample :
  let m1 := snd (serial_init no_serial_hw (boot (fun _ => 0))) in
  nth_error (trace m1) 2 = Some (In_b 0x3fd 0xff) /\
  serial_exists m1 = false /\
  outs (trace (snd (serial_putc no_serial_hw 0x41 m1))) =
    (0x3f8, 0x41) :: outs (trace m1) /\
  snd (serial_putc no_serial_hw 0x41 m1) <> m1.
Proof.
  split; [reflexivity|]. split; [reflexivity|].
  split; [vm_compute; reflexivity|].
  intros H. apply (f_equal (fun m => length (trace m))) in H.
  vm_compute in H. discriminate.
Qed.

(** ** The display probe *)

Section Probe.

Context {hdr : console_h} (hw : hardware).

(** C9.  [cga_init] reads the first cell of the colour window, stores
    0xa55a there and reads the cell back.  If the read-back is 0xa55a -
    as it is when the cell is backed by memory - the word read first is
    stored back as the last display access, the colour window is
    selected, and every display cell reads as it did before the call.
    If the read-back differs, these three accesses are the only ones:
    no restoring store, no access to the monochrome window, which is
    selected unprobed, and display memory is as before. *)
Theorem cga_probe_restores m :
  let cp := KERNBASE + CGA_BUFF in
  let was := fst (load16 hw cp m) in
  let probe :=
    fst (load16 hw cp (snd (store16 hw cp 0xa55a (snd (load16 hw cp m))))) in
  let m' := snd (cga_init hw m) in
  (vram_backed hw cp = true -> probe = 0xa55a) /\
  (probe = 0xa55a ->
     mem_events (trace m') =
       [Mem_wr cp was; Mem_rd cp probe; Mem_wr cp 0xa55a; Mem_rd cp was]
         ++ mem_events (trace m) /\
     (forall a, u16 (vram m' a) = u16 (vram m a)) /\
     crt_buf m' = cp /\ addr_6845 m' = u32 CGA_BASE) /\
  (probe <> 0xa55a ->
     mem_events (trace m') =
       [Mem_rd cp probe; Mem_wr cp 0xa55a; Mem_rd cp was] ++ mem_events (trace m) /\
     vram m' = vram m /\
     crt_buf m' = KERNBASE + MONO_BUFF /\ addr_6845 m' = u32 MONO_BUFF).
Proof.
  intros cp was probe m'. subst was probe m'.
  unfold cga_init, bind, load16, store16, modify, gets, ret, outb, inb.
  fold cp.
  destruct (vram_backed hw cp) eqn:Hback;
    cbn [fst snd trace set_trace vram set_vram]; rewrite ?Hback.
  - rewrite Z.eqb_refl. change (u16 (u16 42330)) with 42330.
    change (negb (42330 =? 42330)) with false. cbv iota.
    cbn [fst snd trace set_trace vram set_vram crt_buf set_crt_buf set_crt_pos
         addr_6845 set_addr_6845 mem_events app].
    rewrite ?Hback.
    cbn [fst snd trace set_trace vram set_vram crt_buf set_crt_buf set_crt_pos
         addr_6845 set_addr_6845 mem_events app].
    assert (Hu : u16 (u16 (vram m cp)) = u16 (vram m cp))
      by (unfold u16; apply Z.mod_mod; lia).
    split; [reflexivity|]. split; [|intros H; contradiction].
    intros _. rewrite Hu. repeat split.
    intros a. destruct (Z.eqb_spec a cp) as [->|]; [|reflexivity].
    rewrite !Hu. reflexivity.
  - set (t1 := Mem_wr cp (u16 42330)
               :: Mem_rd cp (u16 (vram_float hw (trace m) cp)) :: trace m).
    set (probe := u16 (vram_float hw t1 cp)).
    split; [discriminate|]. split.
    + intros Hp. rewrite Hp. change (negb (42330 =? 42330)) with false. cbv iota.
      cbn [fst snd trace set_trace vram set_vram crt_buf set_crt_buf set_crt_pos
           addr_6845 set_addr_6845 mem_events app].
      rewrite ?Hback.
      cbn [fst snd trace set_trace vram set_vram crt_buf set_crt_buf set_crt_pos
           addr_6845 set_addr_6845 mem_events app].
      assert (Hu : u16 (u16 (vram_float hw (trace m) cp)) =
                   u16 (vram_float hw (trace m) cp))
        by (unfold u16; apply Z.mod_mod; lia).
      rewrite Hu. repeat split.
    + intros Hp.
      destruct (probe =? 42330) eqn:E; [apply Z.eqb_eq in E; contradiction|].
      cbn [negb].
      cbn [fst snd trace set_trace vram set_vram crt_buf set_crt_buf set_crt_pos
           addr_6845 set_addr_6845 mem_events app].
      repeat split.
Qed.

End Probe.

(** ** Zero is never stored *)

Lemma ring_inv_ring m m' : ring m = ring m' -> ring_inv m -> ring_inv m'.
Proof.
  unfold ring. intros E. injection E as Eb Er Ew.
  unfold ring_inv, ring_wf, ring_contents, ring_count.
  rewrite Eb, Er, Ew. auto.
Qed.

Lemma ring_inv_store c m : 0 < c < 256 -> ring_inv m -> ring_inv (cons_store c m).
Proof.
  intros Hc (Hwf & Hnz). split; [apply cons_store_ring_wf; assumption|].
  rewrite ring_contents_store by assumption. unfold ring_push.
  destruct (_ =? _); [constructor|].
  apply Forall_app. split; [assumption|].
  constructor; [|constructor]. rewrite u8_small by lia. lia.
Qed.

Lemma cons_intr_inv proc :
  byte_source proc ->
  forall fuel m m', ring_inv m -> cons_intr fuel proc m = Some m' -> ring_inv m'.
Proof.
  intros Hsrc. induction fuel as [|fuel IH]; intros m m' Hinv E; [discriminate|].
  cbn [cons_intr] in E. destruct (Hsrc m) as (Hc & Hring).
  destruct (proc m) as [c m1]. cbn [fst snd] in *.
  assert (Hinv1 : ring_inv m1) by (apply (ring_inv_ring m); auto).
  destruct (c =? -1) eqn:E1; [injection E as <-; exact Hinv1|].
  apply Z.eqb_neq in E1.
  destruct (c =? 0) eqn:E0; [apply (IH m1); assumption|].
  apply Z.eqb_neq in E0. apply (IH (cons_store c m1)); [|exact E].
  apply ring_inv_store; [lia | exact Hinv1].
Qed.

Lemma serial_proc_data_source hw : byte_source (serial_proc_data hw).
Proof.
  intros m. unfold serial_proc_data, bind. rewrite inb_run.
  destruct (_ =? 0); [split; [left|]; reflexivity|].
  rewrite inb_run. cbn [fst snd]. split; [right; apply u8_range | reflexivity].
Qed.

Lemma kbd_decode_source {hdr : console_h} data m :
  0 <= data < 256 ->
  0 <= fst (kbd_decode data m) < 256 /\ ring (snd (kbd_decode data m)) = ring m.
Proof.
  intros Hd. destruct (Z.lt_ge_cases data 0x80) as [Hlt|Hge].
  - rewrite kbd_decode_press by lia. cbv zeta. cbn [fst snd]. split.
    + destruct (Z.testbit _ 3); [apply swap_case_range|]; apply charcode_range.
    + destruct (_ && _ && _); reflexivity.
  - destruct (kbd_decode_release data m ltac:(lia)) as [s' E]. rewrite E.
    cbn [fst snd]. split; [lia | reflexivity].
Qed.

Lemma kbd_proc_data_source {hdr : console_h} hw : byte_source (kbd_proc_data hw).
Proof.
  intros m. unfold kbd_proc_data, bind. rewrite inb_run.
  destruct (_ =? 0); [split; [left|]; reflexivity|].
  rewrite inb_run.
  match goal with
  | |- context [kbd_decode ?d ?m0] =>
      destruct (kbd_decode_source d m0 (u8_range _)) as (Hc & Hr)
  end.
  split; [right; exact Hc | rewrite Hr; reflexivity].
Qed.

Section Invariant.

Context {hdr : console_h} (hw : hardware).

Lemma serial_intr_inv fuel m m' :
  ring_inv m -> serial_intr hw fuel m = Some m' -> ring_inv m'.
Proof.
  unfold serial_intr. intros Hinv E. destruct (serial_exists m).
  - exact (cons_intr_inv _ (serial_proc_data_source hw) fuel m m' Hinv E).
  - injection E as <-. exact Hinv.
Qed.

Lemma kbd_intr_inv fuel m m' :
  ring_inv m -> kbd_intr hw fuel m = Some m' -> ring_inv m'.
Proof. apply (cons_intr_inv _ (kbd_proc_data_source hw)). Qed.

Lemma cons_getc_inv fuel m c m' :
  ring_inv m -> cons_getc hw fuel m = Some (c, m') -> ring_inv m'.
Proof.
  unfold cons_getc. intros Hinv E.
  destruct (serial_intr hw fuel m) as [m1|] eqn:E1; [|discriminate].
  destruct (kbd_intr hw fuel m1) as [m2|] eqn:E2; [|discriminate].
  assert (Hinv2 : ring_inv m2)
    by (eapply kbd_intr_inv; [eapply serial_intr_inv|]; eauto).
  destruct (cons_rpos m2 =? cons_wpos m2) eqn:Ee; cbn [negb] in E.
  - injection E as _ <-. exact Hinv2.
  - apply Z.eqb_neq in Ee. destruct Hinv2 as (Hwf2 & Hnz2).
    destruct (ring_contents_pop m2 Hwf2 Ee) as (Hwf3 & Hc3).
    rewrite Hc3 in Hnz2. apply Forall_cons in Hnz2. destruct Hnz2 as (_ & Hnz3).
    assert (Hm' : m' = set_cons_rpos ((cons_rpos m2 + 1) mod CONSBUFSIZE) m2).
    { injection E as _ <-. destruct Hwf2 as (_ & Hr & _). unfold CONSBUFSIZE in *.
      rewrite u32_small by lia. cbn [cons_rpos set_cons_rpos].
      destruct (cons_rpos m2 + 1 =? 512) eqn:E'.
      - apply Z.eqb_eq in E'. rewrite E'. reflexivity.
      - apply Z.eqb_neq in E'. rewrite Z.mod_small by lia. reflexivity. }
    rewrite Hm'. split; assumption.
Qed.

Lemma getchar_inv fuel :
  forall m c m', ring_inv m -> getchar hw fuel m = Some (c, m') -> ring_inv m'.
Proof.
  induction fuel as [|fuel IH]; intros m c m' Hinv E; [discriminate|].
  cbn [getchar] in E.
  destruct (cons_getc hw fuel m) as [[c1 m1]|] eqn:E1; [|discriminate].
  apply cons_getc_inv in E1; [|exact Hinv].
  destruct (c1 =? 0); [eapply IH; eauto|]. injection E as _ <-. exact E1.
Qed.

Lemma cga_init_ring m : ring (snd (cga_init hw m)) = ring m.
Proof.
  unfold cga_init, bind, load16, store16, modify, gets, ret, outb, inb.
  cbn [fst snd]. destruct (negb _); destruct (vram_backed hw _); reflexivity.
Qed.

Lemma serial_init_ring m : ring (snd (serial_init hw m)) = ring m.
Proof. reflexivity. Qed.

Lemma boot_inv d : ring_inv (boot d).
Proof. split; [apply boot_wf|]. constructor. Qed.

Lemma reachable_inv m : reachable hw m -> ring_inv m.
Proof.
  induction 1 as [d | m _ IH | m _ IH | c m _ IH | c m _ IH
                  | fuel m m' _ IH E | fuel m m' _ IH E
                  | fuel m c m' _ IH E | fuel m c m' _ IH E].
  - apply boot_inv.
  - apply (ring_inv_ring m); [symmetry; apply cga_init_ring | exact IH].
  - apply (ring_inv_ring m); [symmetry; apply serial_init_ring | exact IH].
  - destruct (serial_putc_run hw c m) as (i & t & E & _). rewrite E. exact IH.
  - destruct (lpt_putc_run hw c m) as (i & t & E & _). rewrite E. exact IH.
  - exact (serial_intr_inv fuel m m' IH E).
  - exact (kbd_intr_inv fuel m m' IH E).
  - exact (cons_getc_inv fuel m c m' IH E).
  - exact (getchar_inv fuel m c m' IH E).
Qed.

(** Every index between the cursors holds one of the unread bytes. *)
Lemma between_in_contents m i :
  ring_wf m -> between (cons_rpos m) (cons_wpos m) i ->
  In (idx (cons_buf m) i) (ring_contents m).
Proof.
  intros (_ & Hr & Hw) Hb. unfold between, ring_contents, ring_count, CONSBUFSIZE in *.
  apply in_map_iff.
  set (r := cons_rpos m) in *. set (w := cons_wpos m) in *.
  destruct (r <=? w) eqn:E.
  - apply Z.leb_le in E. exists (Z.to_nat (i - r)). split.
    + rewrite Z2Nat.id by lia. replace (r + (i - r)) with i by lia.
      rewrite Z.mod_small by lia. reflexivity.
    + apply in_seq. rewrite Z.mod_small by lia. lia.
  - apply Z.leb_gt in E.
    assert (Hn : (w - r) mod 512 = w - r + 512).
    { symmetry. apply (Z.mod_unique (w - r) 512 (-1)); lia. }
    rewrite Hn. destruct Hb as [Hb|Hb].
    + exists (Z.to_nat (i - r)). split.
      * rewrite Z2Nat.id by lia. replace (r + (i - r)) with i by lia.
        rewrite Z.mod_small by lia. reflexivity.
      * apply in_seq. lia.
    + exists (Z.to_nat (i - r + 512)). split.
      * rewrite Z2Nat.id by lia. replace (r + (i - r + 512)) with (i + 1 * 512) by lia.
        rewrite Z.mod_add by lia. rewrite Z.mod_small by lia. reflexivity.
      * apply in_seq. lia.
Qed.

(** C8.  The zero byte is never stored in the ring buffer.  A round of
    [cons_intr] in which the source function returns 0 goes on from the
    state the source function left, with no store; a key release makes
    [kbd_proc_data] return 0 and change nothing but the modifier state
    and the history; and in every state the console can reach, each
    byte of [cons.buf] between [rpos] and [wpos] is nonzero. *)
Theorem zero_byte_never_stored :
  (forall proc fuel m m1,
      proc m = (0, m1) -> cons_intr (S fuel) proc m = cons_intr fuel proc m1) /\
  (forall m,
      let st := u8 (port_in hw (trace m) KBSTATP) in
      let data := u8 (port_in hw (In_b KBSTATP st :: trace m) KBDATAP) in
      Z.land st KBS_DIB <> 0 -> 0x80 <= data ->
      exists s' t', kbd_proc_data hw m = (0, set_shift s' (set_trace t' m))) /\
  (forall m,
      reachable hw m ->
      ring_wf m /\
      forall i, between (cons_rpos m) (cons_wpos m) i -> idx (cons_buf m) i <> 0).
Proof.
  split; [|split].
  - intros proc fuel m m1 E. cbn [cons_intr]. rewrite E. reflexivity.
  - intros m st data Hst Hdata.
    unfold kbd_proc_data, bind. rewrite inb_run. fold st.
    destruct (Z.land st KBS_DIB =? 0) eqn:E; [apply Z.eqb_eq in E; contradiction|].
    rewrite inb_run. cbn [trace set_trace]. fold data.
    pose proof (u8_range (port_in hw (In_b KBSTATP st :: trace m) KBDATAP)) as Hr.
    fold data in Hr.
    match goal with
    | |- context [kbd_decode data ?m0] =>
        destruct (kbd_decode_release data m0 ltac:(lia)) as [s' Es]; rewrite Es
    end.
    exists s'. eexists. reflexivity.
  - intros m Hreach. destruct (reachable_inv m Hreach) as (Hwf & Hnz).
    split; [exact Hwf|]. intros i Hb.
    apply (between_in_contents m i Hwf) in Hb.
    rewrite Forall_forall in Hnz. apply Hnz, list_elem_of_In, Hb.
Qed.

End Invariant.

Lemma zero_byte_never_stored_witness :
  match @kbd_intr pc_console_h (pc_hw [] [0x1E; 0x9E; 0x39]) 4 (boot (fun _ => 0)) with
  | Some m' =>
      ring_contents m' = [chr "a"; chr " "] /\
      forall i, between 0 2 i -> idx (cons_buf m') i <> 0
  | None => False
  end.
Proof.
  destruct (@kbd_intr pc_console_h (pc_hw [] [0x1E; 0x9E; 0x39]) 4 (boot (fun _ => 0)))
    as [m'|] eqn:E; [|vm_compute in E; discriminate].
  assert (Hc : ring_contents m' = [chr "a"; chr " "] /\
               cons_rpos m' = 0 /\ cons_wpos m' = 2).
  { vm_compute in E. injection E as <-. vm_compute. auto. }
  destruct Hc as (Hc & Hr & Hw). split; [exact Hc|].
  destruct (@zero_byte_never_stored pc_console_h (pc_hw [] [0x1E; 0x9E; 0x39]))
    as (_ & _ & Hinv).
  destruct (Hinv m') as (_ & Hnz).
  - apply (reach_kbd_intr _ 4 (boot (fun _ => 0)) m'); [apply reach_boot | exact E].
  - rewrite Hr, Hw in Hnz. exact Hnz.
Defined.

Lemma cga_probe_restores_witness :
  let cp := 0xF0000000 + 0xB8000 in
  let colour := snd (@cga_init pc_console_h (pc_hw [] []) (boot (fun _ => 0x0741))) in
  let mono := snd (@cga_init pc_console_h mono_hw (boot (fun _ => 0x0741))) in
  (mem_events (trace colour) =
     [Mem_wr cp 0x0741; Mem_rd cp 0xa55a; Mem_wr cp 0xa55a; Mem_rd cp 0x0741] /\
   u16 (vram colour cp) = 0x0741 /\ crt_buf colour = cp) /\
  (mem_events (trace mono) =
     [Mem_rd cp 0xffff; Mem_wr cp 0xa55a; Mem_rd cp 0xffff] /\
   crt_buf mono = 0xF0000000 + 0xB0000).
Proof.
  intros cp colour mono. split.
  - destruct (@cga_probe_restores pc_console_h (pc_hw [] []) (boot (fun _ => 0x0741)))
      as (_ & Hc & _).
    destruct (Hc ltac:(reflexivity)) as (Hev & Hv & Hb & _).
    split; [exact Hev|]. split; [exact (Hv cp) | exact Hb].
  - destruct (@cga_probe_restores pc_console_h mono_hw (boot (fun _ => 0x0741)))
      as (_ & _ & Hm).
    destruct (Hm ltac:(vm_compute; discriminate)) as (Hev & _ & Hb & _).
    split; [exact Hev | exact Hb].
Defined.

(** * Further properties *)

(** ** The wait loop at its two ends *)

Section TransmitEdges.

Context (hw : hardware).

(** A status port that never shows the bit uses up the whole budget. *)
Lemma spin_wait_never port mask (Hport : port <> 0x84) :
  (forall h, Z.land (u8 (port_in hw h port)) mask = 0) ->
  forall budget i m,
    exists t,
      spin_wait hw port mask budget i m = (i + Z.of_nat budget, set_trace t m) /\
      outs t = outs (trace m) /\
      count_in 0x84 t = count_in 0x84 (trace m) + 4 * Z.of_nat budget /\
      count_in port t = count_in port (trace m) + Z.of_nat budget + 1.
Proof.
  intros Hnever.
  assert (E1 : (port =? 0x84) = false) by (apply Z.eqb_neq; assumption).
  assert (E2 : (0x84 =? port) = false) by (apply Z.eqb_neq; congruence).
  induction budget as [|n IH]; intros i m.
  - cbn [spin_wait]. unfold bind. rewrite inb_run, Hnever. cbn [Z.eqb].
    eexists. split; [unfold ret; rewrite Z.add_0_r; reflexivity|].
    cbn [count_in outs]. rewrite Z.eqb_refl, E1. repeat split; lia.
  - cbn [spin_wait]. unfold bind at 1. rewrite inb_run, Hnever. cbn [Z.eqb].
    unfold bind at 1.
    set (v := u8 (port_in hw (trace m) port)).
    destruct (delay_run hw (set_trace (In_b port v :: trace m) m))
      as (t1 & Hd & Ho & Hc).
    rewrite Hd.
    destruct (IH (i + 1) (set_trace t1 (set_trace (In_b port v :: trace m) m)))
      as (t & Hs & Hout & H84 & Hp).
    exists t. rewrite Hs. split; [f_equal; lia|].
    cbn [trace set_trace] in *. rewrite Ho in Hout. rewrite !Hc in *.
    cbn [count_in outs] in *. rewrite Z.eqb_refl, E1, E2 in *.
    repeat split; try lia. assumption.
Qed.

(** A status port that shows the bit at the first read ends the wait
    there. *)
Lemma spin_wait_ready port mask budget i m :
  Z.land (u8 (port_in hw (trace m) port)) mask <> 0 ->
  spin_wait hw port mask budget i m =
    (i, set_trace (In_b port (u8 (port_in hw (trace m) port)) :: trace m) m).
Proof.
  intros H. destruct budget; cbn [spin_wait]; unfold bind; rewrite inb_run;
    (destruct (_ =? 0) eqn:E; [apply Z.eqb_eq in E; contradiction|]);
    reflexivity.
Qed.

(** X1.  When the ready bit of a device never appears, the routine of
    that device uses its whole budget and no more: [serial_putc] (and
    likewise [lpt_putc], each under the condition on its own status
    port) runs [delay] exactly 12800 times, reads the status port 12800
    times before that and once more after it, and only then writes the
    byte, as if the device had been ready. *)
Theorem putc_budget_exhausted c m :
  ((forall h, Z.land (u8 (port_in hw h (COM1 + COM_LSR))) COM_LSR_TXRDY = 0) ->
   exists w,
     let st := u8 (port_in hw (w ++ trace m) (COM1 + COM_LSR)) in
     serial_putc hw c m =
       (tt, set_trace (Out_b (COM1 + COM_TX) (u8 c)
                         :: In_b (COM1 + COM_LSR) st :: w ++ trace m) m) /\
     waited hw (COM1 + COM_LSR) COM_LSR_TXRDY (Z.to_nat 12800) (trace m) 12800
       (In_b (COM1 + COM_LSR) st :: w ++ trace m) /\
     outs w = [] /\
     count_in 0x84 w = 4 * 12800 /\
     count_in (COM1 + COM_LSR) w = 12800) /\
  ((forall h, Z.land (u8 (port_in hw h (0x378 + 1))) 0x80 = 0) ->
   exists w,
     let st := u8 (port_in hw (w ++ trace m) (0x378 + 1)) in
     lpt_putc hw c m =
       (tt, set_trace (Out_b (0x378 + 2) 0x08 :: Out_b (0x378 + 2) 0x0d
                         :: Out_b (0x378 + 0) (u8 c)
                         :: In_b (0x378 + 1) st :: w ++ trace m) m) /\
     waited hw (0x378 + 1) 0x80 (Z.to_nat 12800) (trace m) 12800
       (In_b (0x378 + 1) st :: w ++ trace m) /\
     outs w = [] /\
     count_in 0x84 w = 4 * 12800 /\
     count_in (0x378 + 1) w = 12800).
Proof.
  split; intros Hnever.
  - destruct (serial_putc_waited hw c m)
      as (i & w & E & Hw & Hi & Hend & _ & Ho & H84 & Hp).
    cbv zeta in *.
    destruct Hend as [Hr|Hi']; [exfalso; apply Hr, Hnever|]. subst i.
    exists w. cbv zeta. auto.
  - destruct (lpt_putc_waited hw c m)
      as (i & w & E & Hw & Hi & Hend & _ & Ho & H84 & Hp).
    cbv zeta in *.
    destruct Hend as [Hr|Hi']; [exfalso; apply Hr, Hnever|]. subst i.
    exists w. cbv zeta. auto.
Qed.

(** X2.  When the ready bit shows at the first read of the status port,
    [serial_putc] and [lpt_putc] do not run [delay] at all: the history
    grows by that one read and the writes (one for the UART; data,
    strobe on, strobe off for the printer). *)
Theorem putc_ready_at_once c m :
  let st := u8 (port_in hw (trace m) (COM1 + COM_LSR)) in
  let pst := u8 (port_in hw (trace m) (0x378 + 1)) in
  (Z.land st COM_LSR_TXRDY <> 0 ->
   serial_putc hw c m =
     (tt, set_trace (Out_b (COM1 + COM_TX) (u8 c)
                       :: In_b (COM1 + COM_LSR) st :: trace m) m)) /\
  (Z.land pst 0x80 <> 0 ->
   lpt_putc hw c m =
     (tt, set_trace (Out_b (0x378 + 2) 0x08 :: Out_b (0x378 + 2) 0x0d
                       :: Out_b (0x378 + 0) (u8 c)
                       :: In_b (0x378 + 1) pst :: trace m) m)).
Proof.
  intros st pst. split; intros H.
  - unfold serial_putc, bind. rewrite spin_wait_ready by exact H. reflexivity.
  - unfold lpt_putc, bind. rewrite spin_wait_ready by exact H. reflexivity.
Qed.

(** X3.  [cputchar] fans out unconditionally: whatever the devices do
    and whatever [serial_exists] says, it waits for the UART for at most
    12800 rounds and writes the byte to it, then waits for the printer
    for at most 12800 rounds and writes the byte and the strobe pulse to
    it, and only then calls the display routine, on a state in which
    nothing but the history has changed. *)
Theorem cputchar_fans_out (cga_putc : Z -> M unit) c m :
  exists i j w1 w2,
    let t1 := In_b (COM1 + COM_LSR) (u8 (port_in hw (w1 ++ trace m) (COM1 + COM_LSR)))
              :: w1 ++ trace m in
    let t1' := Out_b (COM1 + COM_TX) (u8 c) :: t1 in
    let t2 := In_b (0x378 + 1) (u8 (port_in hw (w2 ++ t1') (0x378 + 1)))
              :: w2 ++ t1' in
    cputchar hw cga_putc c m =
      cga_putc c (set_trace (Out_b (0x378 + 2) 0x08 :: Out_b (0x378 + 2) 0x0d
                               :: Out_b (0x378 + 0) (u8 c) :: t2) m) /\
    waited hw (COM1 + COM_LSR) COM_LSR_TXRDY (Z.to_nat 12800) (trace m) i t1 /\
    waited hw (0x378 + 1) 0x80 (Z.to_nat 12800) t1' j t2 /\
    0 <= i <= 12800 /\ 0 <= j <= 12800 /\
    count_in 0x84 w1 = 4 * i /\ count_in 0x84 w2 = 4 * j /\
    outs w1 = [] /\ outs w2 = [].
Proof.
  destruct (serial_putc_waited hw c m)
    as (i & w1 & E1 & Hw1 & Hi & _ & _ & O1 & H1 & _).
  cbv zeta in *.
  set (t1' := Out_b (COM1 + COM_TX) (u8 c)
              :: In_b (COM1 + COM_LSR)
                   (u8 (port_in hw (w1 ++ trace m) (COM1 + COM_LSR)))
              :: w1 ++ trace m) in *.
  destruct (lpt_putc_waited hw c (set_trace t1' m))
    as (j & w2 & E2 & Hw2 & Hj & _ & _ & O2 & H2 & _).
  cbv zeta in *. cbn [trace set_trace] in *.
  exists i, j, w1, w2. cbv zeta. fold t1'.
  unfold cputchar, cons_putc, bind. rewrite E1, E2.
  repeat split; try assumption; lia.
Qed.

End TransmitEdges.

Lemma putc_budget_exhausted_witness :
  exists w,
    serial_putc stuck_hw 0x41 (boot (fun _ => 0)) =
      (tt, set_trace (Out_b 0x3f8 0x41 :: In_b 0x3fd 0 :: w ++ [])
             (boot (fun _ => 0))) /\
    count_in 0x84 w = 4 * 12800 /\
    count_in 0x3fd w = 12800.
Proof.
  destruct (putc_budget_exhausted stuck_hw 0x41 (boot (fun _ => 0))) as (Hs & _).
  destruct (Hs ltac:(reflexivity)) as (w & E & _ & _ & H84 & Hp).
  exists w. split; [exact E|]. split; [exact H84 | exact Hp].
Defined.

Lemma putc_ready_at_once_witness :
  serial_putc (pc_hw [] []) 0x41 (boot (fun _ => 0)) =
    (tt, set_trace [Out_b 0x3f8 0x41; In_b 0x3fd 0x60] (boot (fun _ => 0))) /\
  lpt_putc (pc_hw [] []) 0x41 (boot (fun _ => 0)) =
    (tt, set_trace [Out_b 0x37a 0x08; Out_b 0x37a 0x0d; Out_b 0x378 0x41;
                    In_b 0x379 0x80] (boot (fun _ => 0))).
Proof.
  destruct (putc_ready_at_once (pc_hw [] []) 0x41 (boot (fun _ => 0))) as (Hs & Hl).
  split; [apply Hs | apply Hl]; vm_compute; discriminate.
Defined.

(** ** The source functions and their sentinel *)

Section Sources.

Context {hdr : console_h} (hw : hardware).

(** X4.  The source functions return [-1] exactly when the status
    register shows no data, and then they have read the status register
    only: no byte is taken from the device and no variable changes.
    Otherwise they return a value between 0 and 255, so [-1] never
    stands for a byte. *)
Theorem proc_data_sentinel m :
  let lsr := u8 (port_in hw (trace m) (COM1 + COM_LSR)) in
  let kst := u8 (port_in hw (trace m) KBSTATP) in
  (fst (serial_proc_data hw m) = -1 <-> Z.land lsr COM_LSR_DATA = 0) /\
  (Z.land lsr COM_LSR_DATA = 0 ->
   serial_proc_data hw m = (-1, set_trace (In_b (COM1 + COM_LSR) lsr :: trace m) m)) /\
  (Z.land lsr COM_LSR_DATA <> 0 ->
   serial_proc_data hw m =
     (u8 (port_in hw (In_b (COM1 + COM_LSR) lsr :: trace m) (COM1 + COM_RX)),
      set_trace (In_b (COM1 + COM_RX)
                   (u8 (port_in hw (In_b (COM1 + COM_LSR) lsr :: trace m)
                          (COM1 + COM_RX)))
                 :: In_b (COM1 + COM_LSR) lsr :: trace m) m)) /\
  (fst (kbd_proc_data hw m) = -1 <-> Z.land kst KBS_DIB = 0) /\
  (Z.land kst KBS_DIB = 0 ->
   kbd_proc_data hw m = (-1, set_trace (In_b KBSTATP kst :: trace m) m)) /\
  (Z.land kst KBS_DIB <> 0 -> 0 <= fst (kbd_proc_data hw m) < 256).
Proof.
  intros lsr kst.
  assert (Hs0 : Z.land lsr COM_LSR_DATA = 0 ->
                serial_proc_data hw m =
                  (-1, set_trace (In_b (COM1 + COM_LSR) lsr :: trace m) m)).
  { intros H. unfold serial_proc_data, bind. rewrite inb_run. fold lsr.
    rewrite H. reflexivity. }
  assert (Hs1 : Z.land lsr COM_LSR_DATA <> 0 ->
     serial_proc_data hw m =
     (u8 (port_in hw (In_b (COM1 + COM_LSR) lsr :: trace m) (COM1 + COM_RX)),
      set_trace (In_b (COM1 + COM_RX)
                   (u8 (port_in hw (In_b (COM1 + COM_LSR) lsr :: trace m)
                          (COM1 + COM_RX)))
                 :: In_b (COM1 + COM_LSR) lsr :: trace m) m)).
  { intros H. unfold serial_proc_data, bind. rewrite inb_run. fold lsr.
    destruct (_ =? 0) eqn:E; [apply Z.eqb_eq in E; contradiction|].
    rewrite inb_run. reflexivity. }
  assert (Hk0 : Z.land kst KBS_DIB = 0 ->
                kbd_proc_data hw m = (-1, set_trace (In_b KBSTATP kst :: trace m) m)).
  { intros H. unfold kbd_proc_data, bind. rewrite inb_run. fold kst.
    rewrite H. reflexivity. }
  assert (Hk1 : Z.land kst KBS_DIB <> 0 -> 0 <= fst (kbd_proc_data hw m) < 256).
  { intros H. unfold kbd_proc_data, bind. rewrite inb_run. fold kst.
    destruct (_ =? 0) eqn:E; [apply Z.eqb_eq in E; contradiction|].
    rewrite inb_run.
    match goal with
    | |- context [kbd_decode ?d ?m0] =>
        destruct (kbd_decode_source d m0 (u8_range _)) as (Hc & _)
    end.
    exact Hc. }
  split; [|split; [exact Hs0|split; [exact Hs1|split; [|split; [exact Hk0|exact Hk1]]]]].
  - split; intros H.
    + destruct (Z.eq_dec (Z.land lsr COM_LSR_DATA) 0) as [E|E]; [exact E|].
      rewrite (Hs1 E) in H. cbn [fst] in H.
      pose proof (u8_range (port_in hw (In_b (COM1 + COM_LSR) lsr :: trace m)
                              (COM1 + COM_RX))). lia.
    + rewrite (Hs0 H). reflexivity.
  - split; intros H.
    + destruct (Z.eq_dec (Z.land kst KBS_DIB) 0) as [E|E]; [exact E|].
      specialize (Hk1 E). lia.
    + rewrite (Hk0 H). reflexivity.
Qed.

End Sources.

Lemma proc_data_sentinel_witness :
  serial_proc_data (pc_hw [] []) (boot (fun _ => 0)) =
    (-1, set_trace [In_b 0x3fd 0x60] (boot (fun _ => 0))) /\
  fst (serial_proc_data (pc_hw [0x41] []) (boot (fun _ => 0))) = 0x41 /\
  @kbd_proc_data pc_console_h (pc_hw [] []) (boot (fun _ => 0)) =
    (-1, set_trace [In_b 0x64 0x00] (boot (fun _ => 0))).
Proof.
  destruct (@proc_data_sentinel pc_console_h (pc_hw [] []) (boot (fun _ => 0)))
    as (_ & Hs0 & _ & _ & Hk0 & _).
  destruct (@proc_data_sentinel pc_console_h (pc_hw [0x41] []) (boot (fun _ => 0)))
    as (_ & _ & Hs1 & _).
  split; [apply Hs0; reflexivity|].
  split; [rewrite Hs1 by (vm_compute; discriminate); reflexivity|].
  apply Hk0. reflexivity.
Defined.

(** ** What the decoder writes and how far the modifier state reaches *)

Section DecoderSafety.

Context {hdr : console_h}.

(** X5.  The decoder writes to a port in one situation only: a byte it
    decodes leaves the port writes as they are, or adds the single write
    of 0x3 to port 0x92, and the latter happens only for a key press
    whose character is the Delete key code while Ctrl and Alt are both
    set in the resulting modifier state.  A key release and the prefix
    byte never write. *)
Theorem kbd_decode_writes_only_reset data m :
  0 <= data < 256 ->
  let r := kbd_decode data m in
  outs (trace (snd r)) = outs (trace m) \/
  (outs (trace (snd r)) = (0x92, 0x3) :: outs (trace m) /\
   data < 0x80 /\
   fst r = KEY_DEL /\
   Z.testbit (shift (snd r)) 1 = true /\
   Z.testbit (shift (snd r)) 2 = true).
Proof.
  intros Hd r. subst r. destruct (Z.lt_ge_cases data 0x80) as [Hlt|Hge].
  - rewrite kbd_decode_press by lia. cbv zeta. cbn [fst snd].
    destruct (Z.testbit (press_shift (shift m) data) 1) eqn:E1;
      [|left; reflexivity].
    destruct (Z.testbit (press_shift (shift m) data) 2) eqn:E2;
      [|left; reflexivity].
    cbn [andb].
    match goal with
    | |- context [?c =? KEY_DEL] => destruct (Z.eqb_spec c KEY_DEL) as [E|E]
    end; [|left; reflexivity].
    right. cbn [trace set_trace shift set_shift outs].
    repeat split; try assumption.
  - destruct (kbd_decode_release data m ltac:(lia)) as [s' E]. rewrite E.
    left. reflexivity.
Qed.

End DecoderSafety.

Lemma kbd_decode_writes_only_reset_witness :
  outs (trace (snd (@kbd_decode pc_console_h 0x1E (boot (fun _ => 0))))) = [].
Proof.
  destruct (@kbd_decode_writes_only_reset pc_console_h 0x1E (boot (fun _ => 0)))
    as [H|(H & _)]; [lia | exact H |].
  vm_compute in H. discriminate.
Defined.

(** ** Invariants of the reachable states *)

Lemma in7_land s : 0 <= s < 128 <-> Z.land s 127 = s.
Proof.
  change 127 with (Z.ones 7). rewrite Z.land_ones by lia. change (2 ^ 7) with 128.
  split; intros H.
  - apply Z.mod_small. assumption.
  - rewrite <- H. apply Z.mod_pos_bound. lia.
Qed.

Lemma in7_lor a b : 0 <= a < 128 -> 0 <= b < 128 -> 0 <= Z.lor a b < 128.
Proof.
  rewrite !in7_land. intros Ha Hb. rewrite Z.land_lor_distr_l, Ha, Hb. reflexivity.
Qed.

Lemma in7_lxor a b : 0 <= a < 128 -> 0 <= b < 128 -> 0 <= Z.lxor a b < 128.
Proof.
  rewrite !in7_land. intros Ha Hb. apply Z.bits_inj'. intros k Hk.
  rewrite Z.land_spec, !Z.lxor_spec.
  assert (Ta : Z.testbit a k = Z.testbit a k && Z.testbit 127 k)
    by (rewrite <- Z.land_spec, Ha; reflexivity).
  assert (Tb : Z.testbit b k = Z.testbit b k && Z.testbit 127 k)
    by (rewrite <- Z.land_spec, Hb; reflexivity).
  rewrite Ta, Tb.
  destruct (Z.testbit a k), (Z.testbit b k), (Z.testbit 127 k); reflexivity.
Qed.

Lemma in7_land_l a x : 0 <= a < 128 -> 0 <= Z.land a x < 128.
Proof.
  rewrite !in7_land. intros Ha.
  rewrite <- Z.land_assoc, (Z.land_comm x 127), Z.land_assoc, Ha. reflexivity.
Qed.

Lemma shiftcode_in7 d : 0 <= idx shiftcode d < 128.
Proof. destruct (shiftcode_values d) as [E|[E|[E|E]]]; rewrite E; lia. Qed.

Lemma togglecode_in7 d : 0 <= idx togglecode d < 128.
Proof. destruct (togglecode_values d) as [E|[E|[E|E]]]; rewrite E; lia. Qed.

Lemma press_shift_in7 s d : 0 <= s < 128 -> 0 <= press_shift s d < 128.
Proof.
  intros H. unfold press_shift. cbv zeta.
  apply in7_lxor; [|apply togglecode_in7].
  apply in7_lor; [|apply shiftcode_in7].
  destruct (Z.testbit s 6); [apply in7_land_l|]; assumption.
Qed.

(** The modifier state a key release leaves. *)
Lemma kbd_decode_release_shift {hdr : console_h} data m :
  0x80 <= data < 0x100 -> data <> 0xe0 ->
  kbd_decode data m =
    (0, set_shift
          (Z.land (shift m)
             (u32 (Z.lnot (Z.lor (idx shiftcode
                                    (if Z.testbit (shift m) 6 then data
                                     else Z.land data 0x7f))
                                 E0ESC))))
          m).
Proof.
  intros H Hne. unfold kbd_decode.
  destruct (data =? 224) eqn:E; [apply Z.eqb_eq in E; contradiction|].
  change 128 with (2 ^ 7). rewrite test_mask by lia.
  assert (Hb : Z.testbit data 7 = true).
  { apply Z.testbit_true; [lia|]. change (2 ^ 7) with 128.
    assert (data / 128 = 1); [|replace (data / 128) with 1; reflexivity].
    symmetry. apply (Z.div_unique data 128 1 (data - 128)); lia. }
  rewrite Hb. cbn [negb]. unfold bind, gets, modify, ret.
  change E0ESC with (2 ^ 6) at 1. rewrite test_mask by lia.
  rewrite negb_involutive. reflexivity.
Qed.

Lemma kbd_decode_shift_in7 {hdr : console_h} data m :
  0 <= data < 256 -> 0 <= shift m < 128 ->
  0 <= shift (snd (kbd_decode data m)) < 128.
Proof.
  intros Hd Hs. destruct (Z.lt_ge_cases data 0x80) as [Hlt|Hge].
  - rewrite shift_after_press by lia. apply press_shift_in7, Hs.
  - destruct (Z.eq_dec data 0xe0) as [->|Hne].
    + rewrite kbd_decode_e0. cbn [snd shift set_shift].
      apply in7_lor; [assumption|]. change E0ESC with 64. lia.
    + rewrite kbd_decode_release_shift by lia. cbn [snd shift set_shift].
      apply in7_land_l, Hs.
Qed.

Section Reachable.

Context {hdr : console_h} (hw : hardware).

Variable P : machine -> Prop.
Hypothesis P_vars : forall m m', input_vars m = input_vars m' -> P m -> P m'.
Hypothesis P_store : forall c m, P m -> P (cons_store c m).
Hypothesis P_pop : forall r m, P m -> P (set_cons_rpos r m).
Hypothesis P_decode :
  forall data m, 0 <= data < 256 -> P m -> P (snd (kbd_decode data m)).

Lemma cons_intr_keeps proc :
  (forall m, P m -> P (snd (proc m))) ->
  forall fuel m m', P m -> cons_intr fuel proc m = Some m' -> P m'.
Proof.
  intros Hproc. induction fuel as [|fuel IH]; intros m m' Hm E; [discriminate|].
  cbn [cons_intr] in E. specialize (Hproc m Hm).
  destruct (proc m) as [c m1]. cbn [snd] in Hproc.
  destruct (c =? -1); [injection E as <-; exact Hproc|].
  destruct (c =? 0); [exact (IH _ _ Hproc E)|].
  exact (IH _ _ (P_store c m1 Hproc) E).
Qed.

Lemma serial_proc_data_keeps m : P m -> P (snd (serial_proc_data hw m)).
Proof.
  intros Hm. unfold serial_proc_data, bind. rewrite inb_run.
  destruct (_ =? 0); [|rewrite inb_run]; cbn [snd];
    apply (P_vars m); auto.
Qed.

Lemma kbd_proc_data_keeps m : P m -> P (snd (kbd_proc_data hw m)).
Proof.
  intros Hm. unfold kbd_proc_data, bind. rewrite inb_run.
  destruct (_ =? 0); [cbn [snd]; apply (P_vars m); auto|].
  rewrite inb_run. apply P_decode; [apply u8_range|].
  apply (P_vars m); auto.
Qed.

Lemma serial_intr_keeps fuel m m' :
  P m -> serial_intr hw fuel m = Some m' -> P m'.
Proof.
  unfold serial_intr. intros Hm E. destruct (serial_exists m).
  - exact (cons_intr_keeps _ serial_proc_data_keeps fuel m m' Hm E).
  - injection E as <-. exact Hm.
Qed.

Lemma kbd_intr_keeps fuel m m' : P m -> kbd_intr hw fuel m = Some m' -> P m'.
Proof. apply (cons_intr_keeps _ kbd_proc_data_keeps). Qed.

Lemma cons_getc_keeps fuel m c m' :
  P m -> cons_getc hw fuel m = Some (c, m') -> P m'.
Proof.
  unfold cons_getc. intros Hm E.
  destruct (serial_intr hw fuel m) as [m1|] eqn:E1; [|discriminate].
  destruct (kbd_intr hw fuel m1) as [m2|] eqn:E2; [|discriminate].
  assert (Hm2 : P m2)
    by (eapply kbd_intr_keeps; [eapply serial_intr_keeps|]; eauto).
  destruct (negb _); [|injection E as _ <-; exact Hm2].
  injection E as _ <-.
  destruct (_ =? CONSBUFSIZE); repeat apply P_pop; exact Hm2.
Qed.

Lemma getchar_keeps fuel :
  forall m c m', P m -> getchar hw fuel m = Some (c, m') -> P m'.
Proof.
  induction fuel as [|fuel IH]; intros m c m' Hm E; [discriminate|].
  cbn [getchar] in E.
  destruct (cons_getc hw fuel m) as [[c1 m1]|] eqn:E1; [|discriminate].
  apply cons_getc_keeps in E1; [|exact Hm].
  destruct (c1 =? 0); [eapply IH; eauto|]. injection E as _ <-. exact E1.
Qed.

Lemma cga_init_vars m : input_vars (snd (cga_init hw m)) = input_vars m.
Proof.
  unfold cga_init, bind, load16, store16, modify, gets, ret, outb, inb.
  cbn [fst snd]. destruct (negb _); destruct (vram_backed hw _); reflexivity.
Qed.

(** A property of the input variables that holds at boot and is kept
    by a store, by a pop and by the decoder holds in every reachable
    state. *)
Lemma reachable_keeps :
  (forall d, P (boot d)) -> forall m, reachable hw m -> P m.
Proof.
  intros Hboot.
  induction 1 as [d | m _ IH | m _ IH | c m _ IH | c m _ IH
                  | fuel m m' _ IH E | fuel m m' _ IH E
                  | fuel m c m' _ IH E | fuel m c m' _ IH E].
  - apply Hboot.
  - apply (P_vars m); [symmetry; apply cga_init_vars | exact IH].
  - apply (P_vars m); [reflexivity | exact IH].
  - destruct (serial_putc_run hw c m) as (i & t & E & _). rewrite E.
    apply (P_vars m); [reflexivity | exact IH].
  - destruct (lpt_putc_run hw c m) as (i & t & E & _). rewrite E.
    apply (P_vars m); [reflexivity | exact IH].
  - exact (serial_intr_keeps fuel m m' IH E).
  - exact (kbd_intr_keeps fuel m m' IH E).
  - exact (cons_getc_keeps fuel m c m' IH E).
  - exact (getchar_keeps fuel m c m' IH E).
Qed.

End Reachable.

Section ReachableFacts.

Context {hdr : console_h} (hw : hardware).

Lemma cons_store_shift c m : shift (cons_store c m) = shift m.
Proof.
  unfold cons_store. cbn [cons_wpos set_cons_buf set_cons_wpos].
  destruct (_ =? CONSBUFSIZE); reflexivity.
Qed.

(** X6.  The modifier state never leaves the seven bits the decoder
    defines: in every state the console can reach, [shift] is between 0
    and 127. *)
Theorem modifier_state_seven_bits m : reachable hw m -> 0 <= shift m < 128.
Proof.
  apply (reachable_keeps hw (fun m => 0 <= shift m < 128)).
  - intros m1 m2 E H. unfold input_vars, ring in E.
    injection E as Es _ _ _. rewrite <- Es. exact H.
  - intros c m1 H. rewrite cons_store_shift. exact H.
  - intros r m1 H. exact H.
  - intros data m1 Hd H. apply kbd_decode_shift_in7; assumption.
  - intros d. cbn. lia.
Qed.

Lemma reachable_buf_bytes m : reachable hw m -> buf_bytes m.
Proof.
  apply (reachable_keeps hw buf_bytes).
  - intros m1 m2 E H. unfold input_vars, ring in E.
    injection E as _ Eb _ _. unfold buf_bytes. rewrite <- Eb. exact H.
  - intros c m1 H. unfold buf_bytes, cons_store.
    cbn [cons_wpos set_cons_buf set_cons_wpos].
    destruct (_ =? CONSBUFSIZE); cbn [cons_buf set_cons_buf set_cons_wpos];
      apply Forall_insert; (exact H || apply u8_range).
  - intros r m1 H. exact H.
  - intros data m1 Hd H. destruct (kbd_decode_source data m1 Hd) as (_ & E).
    unfold ring in E. injection E as E _ _. unfold buf_bytes. rewrite E. exact H.
  - intros d. unfold buf_bytes. cbn [boot cons_buf].
    apply Forall_forall. intros x Hx. apply list_elem_of_In, repeat_spec in Hx. lia.
Qed.

(** X7.  In every reachable state [cons_getc] returns [-1] or a byte
    between 1 and 255, never 0; so the loop of [getchar] never goes
    round: [getchar] returns what its first call of [cons_getc] returns. *)
Theorem cons_getc_never_zero m :
  reachable hw m ->
  (forall fuel c m', cons_getc hw fuel m = Some (c, m') -> c = -1 \/ 0 < c < 256) /\
  (forall fuel, getchar hw (S fuel) m = cons_getc hw fuel m).
Proof.
  intros Hreach.
  assert (Hrange : forall fuel c m',
             cons_getc hw fuel m = Some (c, m') -> c = -1 \/ 0 < c < 256).
  { intros fuel c m' E. unfold cons_getc in E.
    destruct (serial_intr hw fuel m) as [m1|] eqn:E1; [|discriminate].
    destruct (kbd_intr hw fuel m1) as [m2|] eqn:E2; [|discriminate].
    assert (Hr2 : reachable hw m2).
    { eapply reach_kbd_intr; [|exact E2]. eapply reach_serial_intr; eauto. }
    destruct (cons_rpos m2 =? cons_wpos m2) eqn:Ee; cbn [negb] in E.
    - injection E as <- _. left. reflexivity.
    - injection E as <- _. right. apply Z.eqb_neq in Ee.
      destruct (reachable_inv hw m2 Hr2) as (Hwf & Hnz).
      pose proof (reachable_buf_bytes m2 Hr2) as Hb.
      assert (Hbetween : between (cons_rpos m2) (cons_wpos m2) (cons_rpos m2)).
      { destruct Hwf as (_ & Hr & Hw). unfold between, CONSBUFSIZE in *.
        destruct (_ <=? _) eqn:El; [apply Z.leb_le in El|]; lia. }
      apply (between_in_contents m2 _ Hwf) in Hbetween.
      rewrite Forall_forall in Hnz.
      pose proof (Hnz _ (proj2 (list_elem_of_In _ _) Hbetween)) as Hne.
      destruct (idx_In (cons_buf m2) (cons_rpos m2)) as [H0|Hin];
        [congruence|].
      unfold buf_bytes in Hb. rewrite Forall_forall in Hb.
      apply list_elem_of_In, Hb in Hin. lia. }
  split; [exact Hrange|].
  intros fuel. cbn [getchar].
  destruct (cons_getc hw fuel m) as [[c m']|] eqn:E; [|reflexivity].
  destruct (Hrange fuel c m' E) as [->|Hc]; [reflexivity|].
  destruct (c =? 0) eqn:E0; [apply Z.eqb_eq in E0; lia|reflexivity].
Qed.

(** X8.  With both devices idle [cons_getc] is the pop of a queue: it
    returns the oldest unread byte and removes it, or returns [-1] from
    an empty ring and leaves [rpos] where it is; the array, [wpos] and
    the modifier state are untouched and no port is written. *)
Theorem cons_getc_pops_head m fuel :
  kbd_silent hw ->
  serial_exists m = false \/ serial_dry hw (trace m) ->
  ring_wf m ->
  (0 < fuel)%nat ->
  exists m',
    cons_getc hw fuel m = Some (hd (-1) (ring_contents m), m') /\
    ring_contents m' = tl (ring_contents m) /\
    (ring_contents m = [] -> cons_rpos m' = cons_rpos m) /\
    cons_buf m' = cons_buf m /\ cons_wpos m' = cons_wpos m /\
    shift m' = shift m /\
    outs (trace m') = outs (trace m).
Proof.
  intros Hk Hs Hwf Hf.
  destruct (cons_getc_quiet hw fuel m Hk Hs Hwf Hf) as (t' & r' & E & Hwf' & Hc & Ho).
  cbv zeta in *. eexists. split; [exact E|].
  split; [exact Hc|]. split; [|split; [reflexivity|split; [reflexivity|split]]].
  - intros Hnil. rewrite Hnil in Hc. cbn [tl] in Hc.
    apply (ring_contents_nil _ Hwf') in Hc. apply (ring_contents_nil _ Hwf) in Hnil.
    rewrite Hc, Hnil. reflexivity.
  - reflexivity.
  - cbn [trace set_cons_rpos set_trace]. rewrite outs_app, Ho. reflexivity.
Qed.

Lemma fold_ring_push_small bs :
  forall l, (length l + length bs <= 511)%nat -> fold_left ring_push bs l = l ++ bs.
Proof.
  induction bs as [|c bs IH]; intros l H; [rewrite app_nil_r; reflexivity|].
  cbn [fold_left length] in *. unfold ring_push at 2. unfold CONSBUFSIZE.
  destruct (_ =? _) eqn:E; [apply Z.eqb_eq in E; lia|].
  rewrite IH by (rewrite length_app; cbn [length]; lia).
  rewrite <- app_assoc. reflexivity.
Qed.

(** One drain of a UART and [n] pops, from any well-formed state. *)
Lemma push_pop_run_gen base bs m fuel n :
  kbd_silent hw ->
  serial_delivers hw base bs ->
  0 <= count_in (COM1 + COM_RX) (trace m) - base ->
  serial_exists m = true ->
  ring_wf m ->
  Forall (fun b => 0 < b < 256) bs ->
  (length bs < fuel)%nat ->
  push_pop hw fuel n m =
    Some (drained n
            (fold_left ring_push
               (skipn (Z.to_nat (count_in (COM1 + COM_RX) (trace m) - base)) bs)
               (ring_contents m))).
Proof.
  intros Hk Hd Hc Hs Hwf Hb Hf. unfold push_pop, serial_intr. rewrite Hs.
  set (rest := skipn (Z.to_nat (count_in (COM1 + COM_RX) (trace m) - base)) bs).
  destruct (serial_drain hw base bs Hd rest m fuel Hc eq_refl) as (t' & Hrun & Hcnt & Ho).
  - subst rest. rewrite length_skipn. lia.
  - rewrite Hrun.
    set (m1 := set_trace (t' ++ trace m) (fold_left cons_feed rest m)).
    assert (Hrest : Forall (fun b => 0 < b < 256) rest) by (apply Forall_drop, Hb).
    assert (Hwf1 : ring_wf m1) by (apply (fold_cons_feed_ring_wf rest m Hwf)).
    assert (Hc1 : ring_contents m1 = fold_left ring_push rest (ring_contents m)).
    { change (ring_contents m1) with (ring_contents (fold_left cons_feed rest m)).
      apply fold_cons_feed_contents; assumption. }
    destruct (pops_quiet hw fuel n Hk ltac:(lia) m1) as (m2 & Hp & _).
    + right. apply (serial_delivers_dry hw base bs); assumption.
    + exact Hwf1.
    + rewrite Hp, Hc1. reflexivity.
Qed.

(** X9.  First in, first out from any state, also across the end of
    the array: if the ring holds the unread bytes [l] and one drain of
    the UART pushes the nonzero bytes [bs], with no more than 511 bytes
    in all, then the pops that follow return [l] and then [bs], in
    order. *)
Theorem fifo_from_any_state bs m fuel :
  kbd_silent hw ->
  serial_delivers hw (count_in (COM1 + COM_RX) (trace m)) bs ->
  serial_exists m = true ->
  ring_wf m ->
  Forall (fun b => 0 < b < 256) bs ->
  (length (ring_contents m) + length bs <= 511)%nat ->
  (length bs < fuel)%nat ->
  push_pop hw fuel (length (ring_contents m) + length bs) m =
    Some (ring_contents m ++ bs).
Proof.
  intros Hk Hd Hs Hwf Hb Hlen Hf.
  rewrite (push_pop_run_gen (count_in (COM1 + COM_RX) (trace m)) bs)
    by (assumption || lia).
  rewrite Z.sub_diag. cbn [Z.to_nat skipn].
  rewrite fold_ring_push_small by assumption.
  rewrite <- length_app, drained_all. reflexivity.
Qed.

(** X10.  [serial_init] reads the receive register once.  When the UART
    is detected and holds received bytes at that moment, the first of
    them is consumed by the initialisation and never reaches the ring;
    the drain that follows delivers the others in order. *)
Theorem serial_init_discards_first_byte bs m fuel n :
  kbd_silent hw ->
  serial_delivers hw (count_in (COM1 + COM_RX) (trace m)) bs ->
  serial_exists (snd (serial_init hw m)) = true ->
  ring_wf m ->
  cons_rpos m = cons_wpos m ->
  Forall (fun b => 0 < b < 256) bs ->
  (length bs <= 512)%nat ->
  (length bs < fuel)%nat ->
  push_pop hw fuel n (snd (serial_init hw m)) = Some (drained n (tl bs)).
Proof.
  intros Hk Hd Hs Hwf He Hb Hlen Hf.
  assert (Hcnt : count_in (COM1 + COM_RX) (trace (snd (serial_init hw m))) =
                 count_in (COM1 + COM_RX) (trace m) + 1).
  { unfold serial_init, bind, outb, inb, modify, ret.
    cbn [snd trace set_trace set_serial_exists count_in].
    change (COM1 + COM_RX =? COM1 + COM_RX) with true.
    change (COM1 + COM_IIR =? COM1 + COM_RX) with false.
    change (COM1 + COM_LSR =? COM1 + COM_RX) with false. cbv iota. lia. }
  rewrite (push_pop_run_gen (count_in (COM1 + COM_RX) (trace m)) bs);
    try assumption; [|lia].
  rewrite Hcnt.
  replace (count_in (COM1 + COM_RX) (trace m) + 1
           - count_in (COM1 + COM_RX) (trace m)) with 1 by lia.
  change (Z.to_nat 1) with 1%nat.
  change (ring_contents (snd (serial_init hw m))) with (ring_contents m).
  apply (ring_contents_nil m Hwf) in He. rewrite He.
  destruct bs as [|b bs]; [reflexivity|].
  change (skipn 1 (b :: bs)) with bs. cbn [tl].
  rewrite fold_ring_push_small by (cbn [length] in *; lia). reflexivity.
Qed.

End ReachableFacts.

Lemma pc_hw_serial_dry kb t : serial_dry (pc_hw [] kb) t.
Proof.
  apply (serial_delivers_dry (pc_hw [] kb) 0 []).
  - apply pc_hw_serial_delivers. constructor.
  - pose proof (count_in_nonneg (COM1 + COM_RX) t). cbn [length Z.of_nat]. lia.
Qed.

Lemma wrapped_state_wf : ring_wf wrapped_state.
Proof. repeat split; try reflexivity; discriminate. Qed.

Lemma modifier_state_seven_bits_witness :
  match @kbd_intr pc_console_h (pc_hw [] [0x2A; 0x3A; 0xE0]) 4 (boot (fun _ => 0)) with
  | Some m' => 0 <= shift m' < 128
  | None => False
  end.
Proof.
  destruct (@kbd_intr pc_console_h (pc_hw [] [0x2A; 0x3A; 0xE0]) 4 (boot (fun _ => 0)))
    as [m'|] eqn:E; [|vm_compute in E; discriminate].
  apply (@modifier_state_seven_bits pc_console_h (pc_hw [] [0x2A; 0x3A; 0xE0])).
  apply (reach_kbd_intr _ 4 (boot (fun _ => 0)) m'); [apply reach_boot | exact E].
Defined.

Lemma cons_getc_never_zero_witness :
  @getchar pc_console_h (pc_hw [] [0x1E]) 3 (boot (fun _ => 0)) =
  @cons_getc pc_console_h (pc_hw [] [0x1E]) 2 (boot (fun _ => 0)).
Proof.
  destruct (@cons_getc_never_zero pc_console_h (pc_hw [] [0x1E]) (boot (fun _ => 0)))
    as (_ & H); [apply reach_boot|].
  apply H.
Defined.

Lemma cons_getc_pops_head_witness :
  exists m',
    @cons_getc pc_console_h (pc_hw [] []) 1 wrapped_state = Some (7, m') /\
    ring_contents m' = [].
Proof.
  destruct (@cons_getc_pops_head pc_console_h (pc_hw [] []) wrapped_state 1)
    as (m' & E & Hc & _).
  - apply pc_hw_kbd_silent.
  - right. apply pc_hw_serial_dry.
  - apply wrapped_state_wf.
  - lia.
  - exists m'. split; [exact E | exact Hc].
Defined.

Lemma fifo_from_any_state_witness :
  @push_pop pc_console_h (pc_hw (sample_bytes 5) []) 6 (1 + 5) wrapped_state
  = Some [7; 1; 2; 3; 4; 5].
Proof.
  apply (@fifo_from_any_state pc_console_h (pc_hw (sample_bytes 5) [])
           (sample_bytes 5) wrapped_state 6).
  - apply pc_hw_kbd_silent.
  - apply pc_hw_serial_delivers, sample_bytes_nonzero.
  - reflexivity.
  - apply wrapped_state_wf.
  - apply sample_bytes_nonzero.
  - vm_compute. lia.
  - vm_compute. lia.
Defined.

Lemma serial_init_discards_first_byte_witness :
  @push_pop pc_console_h (pc_hw [0x41; 0x42; 0x43] []) 4 3
     (snd (serial_init (pc_hw [0x41; 0x42; 0x43] []) (boot (fun _ => 0))))
  = Some [0x42; 0x43; -1].
Proof.
  apply (@serial_init_discards_first_byte pc_console_h (pc_hw [0x41; 0x42; 0x43] [])
           [0x41; 0x42; 0x43] (boot (fun _ => 0)) 4 3).
  - apply pc_hw_kbd_silent.
  - apply pc_hw_serial_delivers. repeat constructor; lia.
  - reflexivity.
  - apply boot_wf.
  - reflexivity.
  - repeat constructor; lia.
  - cbn [length]. lia.
  - cbn [length]. lia.
Defined.

(** ** Modifier keys *)

Section Modifiers.

Context {hdr : console_h}.

(** The slots of the modifier keys hold no character in any table. *)
Lemma modifier_slot_empty j x :
  In x [0x1D; 0x2A; 0x36; 0x38; 0x9D; 0xB8; 0x3A; 0x45; 0x46] ->
  idx (nth j charcode []) x = 0.
Proof.
  intros H. cbn [In] in H.
  destruct H as [<-|[<-|[<-|[<-|[<-|[<-|[<-|[<-|[<-|[]]]]]]]]]];
    destruct j as [|[|[|[|[|j]]]]]; reflexivity.
Qed.

Lemma press_no_char d m :
  0 <= d < 0x80 ->
  In (press_slot (shift m) d) [0x1D; 0x2A; 0x36; 0x38; 0x9D; 0xB8; 0x3A; 0x45; 0x46] ->
  fst (kbd_decode d m) = 0.
Proof.
  intros Hd Hin. rewrite kbd_decode_press by assumption. cbv zeta. cbn [fst].
  rewrite modifier_slot_empty by assumption.
  destruct (Z.testbit _ 3); reflexivity.
Qed.

Lemma high_bits_clear s k : 0 <= s < 4294967296 -> 32 <= k -> Z.testbit s k = false.
Proof.
  intros Hs Hk. rewrite <- (u32_small s Hs), testbit_u32 by lia.
  destruct (Z.ltb_spec k 32); [lia | reflexivity].
Qed.

(** Releasing a key whose modifier mask is [mask], from a state that
    holds at most that mask and the pending prefix on top of [s]. *)
Lemma release_clears s x mask :
  0 <= s < 4294967296 ->
  Z.testbit s 6 = false ->
  (forall k, 0 <= k -> Z.testbit x k = true ->
             Z.testbit mask k = true \/ k = 6) ->
  Z.land (Z.lor s x) (u32 (Z.lnot (Z.lor mask E0ESC))) = Z.ldiff s mask.
Proof.
  intros Hs H6 Hx. apply Z.bits_inj'. intros k Hk.
  rewrite Z.land_spec, Z.lor_spec, testbit_u32, Z.lnot_spec, Z.lor_spec,
    Z.ldiff_spec by assumption.
  change E0ESC with (2 ^ 6). rewrite Z.pow2_bits_eqb by lia.
  destruct (Z.ltb_spec k 32) as [Hlt|Hge].
  - destruct (Z.eqb_spec 6 k) as [<-|Hne].
    + rewrite H6, orb_true_r. cbn [negb andb]. rewrite andb_false_r. reflexivity.
    + rewrite orb_false_r. cbn [andb].
      destruct (Z.testbit x k) eqn:Ex.
      * destruct (Hx k Hk Ex) as [Hm|]; [|lia]. rewrite Hm, orb_true_r. cbn.
        rewrite andb_false_r. reflexivity.
      * rewrite orb_false_r. reflexivity.
  - rewrite (high_bits_clear s k) by lia. rewrite andb_false_r. reflexivity.
Qed.

(** The pending prefix is consumed without trace. *)
Lemma consume_prefix s :
  0 <= s < 4294967296 ->
  Z.testbit s 6 = false ->
  Z.land (Z.lor s E0ESC) (u32 (Z.lnot E0ESC)) = s.
Proof.
  intros Hs H6.
  replace (Z.lnot E0ESC) with (Z.lnot (Z.lor 0 E0ESC)) by reflexivity.
  rewrite (release_clears s E0ESC 0 Hs H6).
  - apply Z.ldiff_0_r.
  - intros k Hk. change E0ESC with (2 ^ 6). rewrite Z.pow2_bits_eqb by lia.
    intros E. apply Z.eqb_eq in E. right. lia.
Qed.

Lemma mask_subset mask k :
  0 <= k -> Z.testbit mask k = true -> Z.testbit mask k = true \/ k = 6.
Proof. auto. Qed.

(** X11.  Ctrl, the two Shift keys and Alt are momentary: from a state
    without pending prefix, pressing the key yields no character and
    sets its bit, releasing it yields no character and clears the bit;
    no other bit of the modifier state changes, whatever its value. *)
Theorem momentary_modifier_press_release d mask m :
  In (d, mask) [(0x1D, CTL); (0x2A, SHIFT); (0x36, SHIFT); (0x38, ALT)] ->
  0 <= shift m < 4294967296 ->
  Z.testbit (shift m) 6 = false ->
  let m1 := snd (kbd_decode d m) in
  let m2 := snd (kbd_decode (d + 0x80) m1) in
  fst (kbd_decode d m) = 0 /\
  shift m1 = Z.lor (shift m) mask /\
  fst (kbd_decode (d + 0x80) m1) = 0 /\
  shift m2 = Z.ldiff (shift m) mask.
Proof.
  intros Hin Hs H6 m1 m2.
  assert (Hd : 0 <= d < 0x80 /\ idx shiftcode d = mask /\ idx togglecode d = 0 /\
               Z.land (d + 0x80) 0x7f = d /\ Z.testbit mask 6 = false /\
               In d [0x1D; 0x2A; 0x36; 0x38; 0x9D; 0xB8; 0x3A; 0x45; 0x46] /\
               d + 0x80 <> 0xe0).
  { cbn [In] in Hin.
    destruct Hin as [E|[E|[E|[E|[]]]]]; inversion E; subst d mask;
      (split; [lia|]); repeat (split; [reflexivity|]);
      (split; [cbn [In]; auto 10 | discriminate]). }
  destruct Hd as (Hd & Hsc & Htc & Hlow & Hm6 & Hslot & Hne).
  assert (Hps : press_slot (shift m) d = d) by (unfold press_slot; rewrite H6; reflexivity).
  assert (H1 : shift m1 = Z.lor (shift m) mask).
  { subst m1. rewrite shift_after_press by assumption.
    unfold press_shift. cbv zeta. rewrite Hps, H6, Hsc, Htc. apply Z.lxor_0_r. }
  assert (H16 : Z.testbit (shift m1) 6 = false)
    by (rewrite H1, Z.lor_spec, H6, Hm6; reflexivity).
  split; [apply press_no_char; [assumption | rewrite Hps; assumption]|].
  split; [exact H1|].
  subst m2. rewrite kbd_decode_release_shift by lia. cbn [fst snd shift set_shift].
  split; [reflexivity|].
  rewrite H16, Hlow, Hsc, H1.
  apply release_clears; [assumption | assumption | apply mask_subset].
Qed.

(** X12.  The right-hand Ctrl and Alt keys arrive behind the prefix
    0xE0 and behave as the left-hand ones: E0 and the press set the bit
    and leave no prefix pending, E0 and the release (whose byte is then
    taken whole, high bit included) clear it; neither yields a
    character and no other bit changes. *)
Theorem extended_modifier_press_release d mask m :
  In (d, mask) [(0x1D, CTL); (0x38, ALT)] ->
  0 <= shift m < 4294967296 ->
  Z.testbit (shift m) 6 = false ->
  let m1 := snd (kbd_decode d (snd (kbd_decode 0xe0 m))) in
  let m2 := snd (kbd_decode (d + 0x80) (snd (kbd_decode 0xe0 m1))) in
  fst (kbd_decode d (snd (kbd_decode 0xe0 m))) = 0 /\
  shift m1 = Z.lor (shift m) mask /\
  fst (kbd_decode (d + 0x80) (snd (kbd_decode 0xe0 m1))) = 0 /\
  shift m2 = Z.ldiff (shift m) mask.
Proof.
  intros Hin Hs H6 m1 m2.
  assert (Hd : 0 <= d < 0x80 /\ idx shiftcode (d + 0x80) = mask /\
               idx togglecode (d + 0x80) = 0 /\ Z.testbit mask 6 = false /\
               In (d + 0x80) [0x1D; 0x2A; 0x36; 0x38; 0x9D; 0xB8; 0x3A; 0x45; 0x46] /\
               d + 0x80 <> 0xe0).
  { cbn [In] in Hin.
    destruct Hin as [E|[E|[]]]; inversion E; subst d mask;
      (split; [lia|]); repeat (split; [reflexivity|]);
      (split; [cbn [In]; auto 10 | discriminate]). }
  destruct Hd as (Hd & Hsc & Htc & Hm6 & Hslot & Hne).
  set (me := set_shift (Z.lor (shift m) E0ESC) m).
  assert (Em1 : m1 = snd (kbd_decode d me)) by reflexivity.
  assert (Em2 : m2 = snd (kbd_decode (d + 0x80)
                            (set_shift (Z.lor (shift m1) E0ESC) m1)))
    by reflexivity.
  change (kbd_decode d (snd (kbd_decode 0xe0 m))) with (kbd_decode d me).
  change (kbd_decode (d + 0x80) (snd (kbd_decode 0xe0 m1)))
    with (kbd_decode (d + 0x80) (set_shift (Z.lor (shift m1) E0ESC) m1)).
  clearbody m1 m2.
  assert (He6 : Z.testbit (shift me) 6 = true).
  { subst me. cbn [shift set_shift]. rewrite Z.lor_spec.
    change E0ESC with (2 ^ 6). rewrite Z.pow2_bits_eqb by lia. apply orb_true_r. }
  assert (Hps : press_slot (shift me) d = d + 0x80)
    by (apply press_slot_esc; assumption).
  assert (H1 : shift m1 = Z.lor (shift m) mask).
  { rewrite Em1, shift_after_press by assumption.
    unfold press_shift. cbv zeta. rewrite Hps, He6, Hsc, Htc, Z.lxor_0_r.
    subst me. cbn [shift set_shift]. rewrite consume_prefix by assumption.
    reflexivity. }
  split; [apply press_no_char; [assumption | rewrite Hps; assumption]|].
  split; [exact H1|].
  rewrite Em2, kbd_decode_release_shift by lia. cbn [fst snd shift set_shift].
  split; [reflexivity|].
  assert (Hp6 : Z.testbit (Z.lor (shift m1) E0ESC) 6 = true).
  { rewrite Z.lor_spec. change E0ESC with (2 ^ 6).
    rewrite Z.pow2_bits_eqb by lia. apply orb_true_r. }
  rewrite Hp6, Hsc, H1, <- Z.lor_assoc.
  apply release_clears; [assumption | assumption |].
  intros k Hk. rewrite Z.lor_spec. change E0ESC with (2 ^ 6).
  rewrite Z.pow2_bits_eqb by lia. intros E. apply orb_prop in E.
  destruct E as [E|E]; [left; exact E | right; apply Z.eqb_eq in E; lia].
Qed.


End Modifiers.

Lemma momentary_modifier_press_release_witness :
  let m := set_shift CAPSLOCK (boot (fun _ => 0)) in
  let m1 := snd (@kbd_decode pc_console_h 0x2A m) in
  shift m1 = Z.lor CAPSLOCK SHIFT /\
  shift (snd (@kbd_decode pc_console_h 0xAA m1)) = CAPSLOCK.
Proof.
  destruct (@momentary_modifier_press_release pc_console_h 0x2A SHIFT
              (set_shift CAPSLOCK (boot (fun _ => 0))))
    as (_ & H1 & _ & H2).
  - right. left. reflexivity.
  - vm_compute. split; [discriminate | reflexivity].
  - reflexivity.
  - split; [exact H1 | exact H2].
Defined.

Lemma extended_modifier_press_release_witness :
  let m := boot (fun _ => 0) in
  let m1 := snd (@kbd_decode pc_console_h 0x1D (snd (@kbd_decode pc_console_h 0xe0 m))) in
  shift m1 = CTL /\
  shift (snd (@kbd_decode pc_console_h 0x9D (snd (@kbd_decode pc_console_h 0xe0 m1)))) = 0.
Proof.
  destruct (@extended_modifier_press_release pc_console_h 0x1D CTL (boot (fun _ => 0)))
    as (_ & H1 & _ & H2).
  - left. reflexivity.
  - vm_compute. split; [discriminate | reflexivity].
  - reflexivity.
  - split; [exact H1 | exact H2].
Defined.


(** ** Letters under Shift and CapsLock *)

Section Letters.

Context {hdr : console_h}.

(** Every key that carries a lowercase letter in the plain table
    carries the uppercase letter in the shifted table and is neither a
    modifier nor a toggle. *)
Lemma letter_keys d :
  0 <= d < 0x80 ->
  chr "a" <= idx normalmap d <= chr "z" ->
  idx shiftmap d = idx normalmap d + (chr "A" - chr "a") /\
  idx shiftcode d = 0 /\ idx togglecode d = 0.
Proof.
  intros Hd Hc.
  assert (H : forallb
                (fun n : nat =>
                   let c := nth n normalmap 0 in
                   negb ((97 <=? c) && (c <=? 122)) ||
                   ((nth n shiftmap 0 =? c + (65 - 97)) &&
                    (nth n shiftcode 0 =? 0) && (nth n togglecode 0 =? 0)))
                (seq 0 128) = true) by (vm_compute; reflexivity).
  rewrite forallb_forall in H.
  specialize (H (Z.to_nat d) ltac:(apply in_seq; lia)). cbv zeta in H.
  unfold idx in *. change (chr "a") with 97 in *. change (chr "z") with 122 in *.
  change (chr "A") with 65.
  destruct ((97 <=? nth (Z.to_nat d) normalmap 0) &&
            (nth (Z.to_nat d) normalmap 0 <=? 122)) eqn:E.
  - cbn [negb orb] in H. apply andb_prop in H. destruct H as (H & H3).
    apply andb_prop in H. destruct H as (H1 & H2).
    apply Z.eqb_eq in H1, H2, H3. auto.
  - apply andb_false_iff in E. destruct E as [E|E];
      [apply Z.leb_gt in E | apply Z.leb_gt in E]; lia.
Qed.

(** The table selected by [shift & (CTL | SHIFT)] while Ctrl is up. *)
Lemma charcode_no_ctl s :
  Z.testbit s 1 = false ->
  nth (Z.to_nat (Z.land s (Z.lor CTL SHIFT))) charcode [] =
    if Z.testbit s 0 then shiftmap else normalmap.
Proof.
  intros H1. change (Z.lor CTL SHIFT) with (Z.ones 2).
  rewrite Z.land_ones by lia. change (2 ^ 2) with (2 * 2).
  rewrite Z.rem_mul_r by lia.
  pose proof (Z.testbit_spec' s 0 ltac:(lia)) as B0.
  pose proof (Z.testbit_spec' s 1 ltac:(lia)) as B1.
  change (2 ^ 0) with 1 in B0. rewrite Z.div_1_r in B0.
  change (2 ^ 1) with 2 in B1.
  rewrite <- B0, <- B1, H1. destruct (Z.testbit s 0); reflexivity.
Qed.

(** X14.  On the letter keys Shift and CapsLock each give the capital
    and together cancel: with Ctrl up and no prefix pending, a key whose
    plain character is a lowercase letter decodes to the capital when
    exactly one of Shift and CapsLock is set, and to the lowercase
    letter when none or both are. *)
Theorem capslock_and_shift_on_letters d m :
  0 <= d < 0x80 ->
  chr "a" <= idx normalmap d <= chr "z" ->
  Z.testbit (shift m) 1 = false ->
  Z.testbit (shift m) 6 = false ->
  fst (kbd_decode d m) =
    if xorb (Z.testbit (shift m) 0) (Z.testbit (shift m) 3)
    then idx normalmap d + (chr "A" - chr "a")
    else idx normalmap d.
Proof.
  intros Hd Hc H1 H6.
  destruct (letter_keys d Hd Hc) as (Hup & Hsc & Htc).
  assert (Hps : press_slot (shift m) d = d)
    by (unfold press_slot; rewrite H6; reflexivity).
  assert (Hs : press_shift (shift m) d = shift m).
  { unfold press_shift. cbv zeta. rewrite Hps, H6, Hsc, Htc, Z.lor_0_r.
    apply Z.lxor_0_r. }
  rewrite kbd_decode_press by assumption. cbv zeta. cbn [fst].
  rewrite Hs, Hps, charcode_no_ctl by assumption.
  change (chr "a") with 97 in *. change (chr "z") with 122 in *.
  change (chr "A") with 65 in *.
  assert (Hlow : swap_case (idx normalmap d) = idx normalmap d + (65 - 97)).
  { unfold swap_case. change (chr "a") with 97. change (chr "z") with 122.
    change (chr "A") with 65.
    destruct (97 <=? idx normalmap d) eqn:E1; [|apply Z.leb_gt in E1; lia].
    destruct (idx normalmap d <=? 122) eqn:E2; [|apply Z.leb_gt in E2; lia].
    reflexivity. }
  assert (Hupper : swap_case (idx normalmap d + (65 - 97)) = idx normalmap d).
  { unfold swap_case. change (chr "a") with 97. change (chr "z") with 122.
    change (chr "A") with 65. change (chr "Z") with 90.
    destruct (97 <=? idx normalmap d + (65 - 97)) eqn:E1;
      [apply Z.leb_le in E1; lia|].
    cbn [andb].
    destruct (65 <=? idx normalmap d + (65 - 97)) eqn:E3;
      [|apply Z.leb_gt in E3; lia].
    destruct (idx normalmap d + (65 - 97) <=? 90) eqn:E4;
      [|apply Z.leb_gt in E4; lia].
    cbn [andb]. lia. }
  destruct (Z.testbit (shift m) 0), (Z.testbit (shift m) 3); cbn [xorb];
    rewrite ?Hup, ?Hupper, ?Hlow; reflexivity.
Qed.

End Letters.

Lemma capslock_and_shift_on_letters_witness :
  fst (@kbd_decode pc_console_h 0x1E
         (set_shift (Z.lor SHIFT CAPSLOCK) (boot (fun _ => 0)))) = chr "a" /\
  fst (@kbd_decode pc_console_h 0x1E (set_shift CAPSLOCK (boot (fun _ => 0))))
    = chr "A".
Proof.
  split.
  - apply (@capslock_and_shift_on_letters pc_console_h 0x1E
             (set_shift (Z.lor SHIFT CAPSLOCK) (boot (fun _ => 0))));
      [lia | vm_compute; split; discriminate | reflexivity | reflexivity].
  - apply (@capslock_and_shift_on_letters pc_console_h 0x1E
             (set_shift CAPSLOCK (boot (fun _ => 0))));
      [lia | vm_compute; split; discriminate | reflexivity | reflexivity].
Defined.

(** ** The cursor read at start-up *)

Lemma lor_shiftl_bytes hi lo :
  0 <= hi < 256 -> 0 <= lo < 256 ->
  u16 (Z.lor (Z.shiftl hi 8) lo) = 256 * hi + lo.
Proof.
  intros Hhi Hlo.
  assert (Hdisj : Z.land (Z.shiftl hi 8) lo = 0).
  { apply Z.bits_inj'. intros k Hk.
    rewrite Z.land_spec, Z.shiftl_spec, Z.bits_0 by assumption.
    destruct (Z.lt_ge_cases k 8).
    - rewrite Z.testbit_neg_r by lia. reflexivity.
    - rewrite <- (u8_small lo Hlo). unfold u8. change 256 with (2 ^ 8).
      rewrite Z.mod_pow2_bits_high by lia. apply andb_false_r. }
  pose proof (Z.add_lor_land (Z.shiftl hi 8) lo) as E.
  rewrite Hdisj, Z.shiftl_mul_pow2 in E by lia.
  rewrite Z.shiftl_mul_pow2 by lia. change (2 ^ 8) with 256 in *.
  unfold u16. rewrite Z.mod_small; lia.
Qed.

(** X15.  After the probe [cga_init] reads the cursor through the
    controller it selected: it writes register index 14 to the index
    port and reads the data port, then index 15 and the data port
    again, and stores 256 times the first byte plus the second in
    [crt_pos]; these two are the only port writes of the call. *)
Theorem cga_init_reads_cursor {hdr : console_h} (hw : hardware) m :
  let m' := snd (cga_init hw m) in
  let a := addr_6845 m' in
  exists hi lo t0,
    trace m' = In_b (a + 1) lo :: Out_b a 15 :: In_b (a + 1) hi :: Out_b a 14 :: t0 /\
    outs t0 = outs (trace m) /\
    0 <= hi < 256 /\ 0 <= lo < 256 /\
    crt_pos m' = 256 * hi + lo /\
    (a = u32 CGA_BASE \/ a = u32 MONO_BUFF).
Proof.
  intros m' a. subst a m'.
  unfold cga_init, bind, load16, store16, modify, gets, ret, outb, inb.
  destruct (vram_backed hw (KERNBASE + CGA_BUFF)) eqn:Hback;
    cbn [fst snd trace set_trace vram set_vram]; rewrite ?Hback;
    match goal with
    | |- context [negb (?p =? 42330)] => destruct (negb (p =? 42330))
    end;
    cbn [fst snd trace set_trace vram set_vram crt_buf set_crt_buf
         crt_pos set_crt_pos addr_6845 set_addr_6845]; rewrite ?Hback;
    cbn [fst snd trace set_trace vram set_vram crt_buf set_crt_buf
         crt_pos set_crt_pos addr_6845 set_addr_6845];
    do 3 eexists;
    (split; [reflexivity|]);
    (split; [reflexivity|]);
    (split; [apply u8_range|]);
    (split; [apply u8_range|]);
    (split; [apply lor_shiftl_bytes; apply u8_range|]);
    auto.
Qed.

(** ** From scancodes to the ring *)

Section Pipeline.

Context {hdr : console_h} (hw : hardware).

(** The decoder reads the modifier state and nothing else, and writes
    the modifier state and, for the reset, the history. *)
Lemma kbd_decode_vars d m m' :
  0 <= d < 256 ->
  input_vars m = input_vars m' ->
  fst (kbd_decode d m) = fst (kbd_decode d m') /\
  input_vars (snd (kbd_decode d m)) = input_vars (snd (kbd_decode d m')).
Proof.
  intros Hd E. unfold input_vars, ring in E. injection E as Es Eb Er Ew.
  destruct (Z.lt_ge_cases d 0x80) as [Hlt|Hge].
  - rewrite !kbd_decode_press by lia. cbv zeta. cbn [fst snd]. rewrite <- Es.
    split; [reflexivity|].
    destruct (_ && _ && _); unfold input_vars, ring;
      cbn [shift set_shift set_trace cons_buf cons_rpos cons_wpos]; congruence.
  - destruct (Z.eq_dec d 0xe0) as [->|Hne].
    + rewrite !kbd_decode_e0. cbn [fst snd]. split; [reflexivity|].
      unfold input_vars, ring.
      cbn [shift set_shift cons_buf cons_rpos cons_wpos]. congruence.
    + rewrite !kbd_decode_release_shift by lia. cbn [fst snd]. rewrite <- Es.
      split; [reflexivity|]. unfold input_vars, ring.
      cbn [shift set_shift cons_buf cons_rpos cons_wpos]. congruence.
Qed.

Lemma kbd_decode_count d m p :
  0 <= d < 256 ->
  count_in p (trace (snd (kbd_decode d m))) = count_in p (trace m).
Proof.
  intros Hd. destruct (Z.lt_ge_cases d 0x80) as [Hlt|Hge].
  - rewrite kbd_decode_press by lia. cbv zeta. cbn [snd].
    destruct (_ && _ && _); reflexivity.
  - destruct (kbd_decode_release d m ltac:(lia)) as [s' E]. rewrite E. reflexivity.
Qed.

Lemma cons_feed_vars m m' c :
  input_vars m = input_vars m' ->
  input_vars (cons_feed m c) = input_vars (cons_feed m' c).
Proof.
  intros E. unfold input_vars, ring in E. injection E as Es Eb Er Ew.
  unfold cons_feed. destruct (c =? 0); [unfold input_vars, ring; congruence|].
  unfold cons_store. cbn [cons_wpos set_cons_buf set_cons_wpos]. rewrite Ew.
  destruct (_ =? CONSBUFSIZE); unfold input_vars, ring;
    cbn [shift set_cons_buf set_cons_wpos cons_buf cons_rpos cons_wpos]; congruence.
Qed.

Lemma cons_feed_trace m c : trace (cons_feed m c) = trace m.
Proof.
  unfold cons_feed. destruct (c =? 0); [reflexivity|].
  unfold cons_store. cbn [cons_wpos set_cons_buf set_cons_wpos].
  destruct (_ =? CONSBUFSIZE); reflexivity.
Qed.

(** Draining a keyboard controller that holds bytes: each byte it
    still holds is decoded and fed to the ring, in order, and the loop
    ends. *)
Lemma kbd_drain base codes :
  KBSTATP <> KBDATAP ->
  kbd_delivers hw base codes ->
  forall rest m mm fuel,
    0 <= count_in KBDATAP (trace m) - base ->
    rest = skipn (Z.to_nat (count_in KBDATAP (trace m) - base)) codes ->
    input_vars m = input_vars mm ->
    (length rest < fuel)%nat ->
    exists m',
      cons_intr fuel (kbd_proc_data hw) m = Some m' /\
      input_vars m' = input_vars (kbd_feed rest mm).
Proof.
  intros Hports Hd.
  assert (Ep : (KBSTATP =? KBDATAP) = false) by (apply Z.eqb_neq; exact Hports).
  induction rest as [|d rest IH]; intros m mm fuel Hk Hrest Hv Hf.
  - destruct fuel as [|fuel]; [cbn in Hf; lia|]. cbn [cons_intr kbd_feed].
    assert (Hlen : Z.of_nat (length codes) <= count_in KBDATAP (trace m) - base).
    { apply (f_equal (@length Z)) in Hrest. rewrite length_skipn in Hrest.
      cbn [length] in Hrest. lia. }
    pose proof (Hd (trace m)) as H1. cbv zeta in H1. specialize (H1 Hk).
    destruct (_ <? _) eqn:E in H1; [apply Z.ltb_lt in E; lia|].
    unfold kbd_proc_data, bind. rewrite inb_run, H1. cbn [Z.eqb]. unfold ret.
    cbn [Z.eqb]. eexists. split; [reflexivity|]. exact Hv.
  - destruct fuel as [|fuel]; [cbn in Hf; lia|]. cbn [cons_intr].
    symmetry in Hrest. apply skipn_cons_inv in Hrest.
    destruct Hrest as (Hlt & Hnth & Hrest).
    pose proof (Hd (trace m)) as H1. cbv zeta in H1. specialize (H1 Hk).
    destruct (_ <? _) eqn:E in H1; [|apply Z.ltb_ge in E; lia].
    destruct H1 as (Hdata & _).
    unfold kbd_proc_data at 1, bind. rewrite inb_run.
    destruct (Z.land _ KBS_DIB =? 0) eqn:E0; [apply Z.eqb_eq in E0; contradiction|].
    rewrite inb_run. cbn [trace set_trace].
    set (st := u8 (port_in hw (trace m) KBSTATP)) in *.
    pose proof (Hd (In_b KBSTATP st :: trace m)) as H2. cbv zeta in H2.
    cbn [count_in] in H2. rewrite Ep, Z.add_0_l in H2.
    specialize (H2 Hk). rewrite E in H2.
    destruct H2 as (_ & Hrx). rewrite Hrx, Hnth.
    assert (Hb : 0 <= d < 256) by (rewrite <- Hnth, <- Hrx; apply u8_range).
    set (m0 := set_trace (In_b KBDATAP d :: In_b KBSTATP st :: trace m)
                 (set_trace (In_b KBSTATP st :: trace m) m)).
    assert (Hv0 : input_vars m0 = input_vars mm) by exact Hv.
    destruct (kbd_decode_vars d m0 mm Hb Hv0) as (Ec & Ev).
    destruct (kbd_decode_source d m0 Hb) as (Hc & _).
    pose proof (kbd_decode_count d m0 KBDATAP Hb) as Hcnt.
    cbn [kbd_feed].
    destruct (kbd_decode d m0) as [c m1], (kbd_decode d mm) as [c' mm1].
    cbn [fst snd] in *. subst c'.
    destruct (c =? -1) eqn:E1; [apply Z.eqb_eq in E1; lia|].
    assert (Hstep : (if c =? 0
                     then cons_intr fuel (kbd_proc_data hw) m1
                     else cons_intr fuel (kbd_proc_data hw) (cons_store c m1)) =
                    cons_intr fuel (kbd_proc_data hw) (cons_feed m1 c)).
    { unfold cons_feed. destruct (c =? 0); reflexivity. }
    rewrite Hstep.
    assert (Hc1 : count_in KBDATAP (trace (cons_feed m1 c)) - base =
                  count_in KBDATAP (trace m) - base + 1).
    { rewrite cons_feed_trace, Hcnt. subst m0. cbn [trace set_trace count_in].
      rewrite Z.eqb_refl, Ep. lia. }
    apply (IH (cons_feed m1 c) (cons_feed mm1 c) fuel).
    + lia.
    + rewrite Hc1, Hrest. f_equal. lia.
    + apply cons_feed_vars, Ev.
    + cbn [length] in Hf. lia.
Qed.

(** X16.  The input pipeline: one call of [kbd_intr] on a keyboard
    controller that holds the bytes [codes] terminates and leaves the
    modifier state and the ring buffer as decoding the bytes one by one,
    in order, and storing each character other than 0 leaves them. *)
Theorem keyboard_pipeline codes m fuel :
  KBSTATP <> KBDATAP ->
  kbd_delivers hw (count_in KBDATAP (trace m)) codes ->
  (length codes < fuel)%nat ->
  exists m',
    kbd_intr hw fuel m = Some m' /\
    shift m' = shift (kbd_feed codes m) /\
    ring m' = ring (kbd_feed codes m).
Proof.
  intros Hports Hd Hf.
  destruct (kbd_drain (count_in KBDATAP (trace m)) codes Hports Hd codes m m fuel)
    as (m' & Hrun & Hv).
  - lia.
  - rewrite Z.sub_diag. reflexivity.
  - reflexivity.
  - exact Hf.
  - exists m'. split; [exact Hrun|]. unfold input_vars in Hv.
    split; congruence.
Qed.

End Pipeline.

Lemma pc_hw_kbd_delivers sb kb :
  Forall (fun b => 0 <= b < 256) kb -> @kbd_delivers pc_console_h (pc_hw sb kb) 0 kb.
Proof.
  intros Hb h k Hk. subst k. rewrite Z.sub_0_r in *.
  cbn [port_in pc_hw KBSTATP KBS_DIB KBDATAP pc_console_h] in *.
  change (100 =? 1021) with false. change (100 =? 1016) with false.
  change (100 =? 100) with true.
  change (96 =? 1021) with false. change (96 =? 1016) with false.
  change (96 =? 100) with false. change (96 =? 96) with true. cbv iota.
  destruct (count_in 96 h <? Z.of_nat (length kb)) eqn:E.
  - split; [discriminate|]. apply Z.ltb_lt in E. apply u8_small.
    assert (Hin : In (nth (Z.to_nat (count_in 96 h)) kb 0) kb)
      by (apply nth_In; lia).
    rewrite Forall_forall in Hb. apply list_elem_of_In, Hb in Hin. exact Hin.
  - reflexivity.
Qed.

Lemma keyboard_pipeline_witness :
  exists m',
    @kbd_intr pc_console_h (pc_hw [] [0x2A; 0x1E; 0xAA; 0x1E; 0x9E]) 6
       (boot (fun _ => 0)) = Some m' /\
    shift m' = 0 /\
    ring m' = (<[1%nat := chr "a"]> (<[0%nat := chr "A"]>
                 (repeat 0 (Z.to_nat CONSBUFSIZE))), 0, 2).
Proof.
  apply (@keyboard_pipeline pc_console_h (pc_hw [] [0x2A; 0x1E; 0xAA; 0x1E; 0x9E])
           [0x2A; 0x1E; 0xAA; 0x1E; 0x9E] (boot (fun _ => 0)) 6).
  - discriminate.
  - apply pc_hw_kbd_delivers. repeat constructor; lia.
  - cbn [length]. lia.
Defined.
